(** * FracSim: the analytical fracture-propagation engine

    A shallow embedding of [services/fractureService] (PKN, KGD and Radial
    solvers, history and profile generators, regime classifier, sensitivity
    analyzer) together with the dispatch of [App.tsx].

    Numbers.  The engine is embedded twice.

    The top-level definitions compute on [num]: a finite value is an exact
    real number, and the three special values of IEEE 754 follow the rules of
    ECMAScript (division by zero, [Math.pow], [Math.sqrt], [Math.min],
    comparisons with NaN).  This model has a single zero, which behaves as
    +0, and it neither rounds nor overflows nor underflows.  It carries the
    closed forms of the solvers: positivity, monotonicity, directions of
    change.

    Module [Binary64] computes on the binary64 values themselves, the
    [number] of JavaScript: [+], [-], [*], [/] and [Math.sqrt] are the
    correctly rounded operations of IEEE 754, with signed zeros, infinities
    and NaN.  [Math.pow] follows the case list of ECMAScript's
    Number::exponentiate; its last case, which the standard leaves to an
    implementation-approximated value, is a parameter [host] of the
    embedding, and every statement about the module is quantified over
    [host].

    Limits.  An identity of real arithmetic such as (T / 50) * 50 = T holds
    in the first model, while binary64 arithmetic can miss it by one unit in
    the last place (T = 7); a product of positive values is positive there,
    while binary64 arithmetic can underflow to 0 or overflow to Infinity.
    Whatever depends on such an identity is stated on [Binary64].  On
    [num], the order statements about the asymptotic matching, the history,
    the profile and the sensitivities compare with [<?], which is false on
    NaN, and leave a margin where rounding can cross a bound; the lemmas on
    closed forms (positivity, finiteness, strict monotonicity) are facts of
    that model. *)

From Stdlib Require Import Floats.
From Stdlib Require Import Reals Lra Lia List String ZArith.
Import ListNotations.

Set Warnings "-inexact-float".

Open Scope R_scope.

(* ================================================================= *)
(** ** The number model *)

Inductive num : Type :=
| Fin (r : R)
| PInf
| NInf
| NaN.

Declare Scope num_scope.
Delimit Scope num_scope with num.
Bind Scope num_scope with num.

Coercion Fin : R >-> num.

Definition neg (a : num) : num :=
  match a with
  | Fin x => Fin (- x)
  | PInf => NInf
  | NInf => PInf
  | NaN => NaN
  end.

Definition add (a b : num) : num :=
  match a, b with
  | Fin x, Fin y => Fin (x + y)
  | NaN, _ | _, NaN => NaN
  | PInf, NInf | NInf, PInf => NaN
  | PInf, _ | _, PInf => PInf
  | NInf, _ | _, NInf => NInf
  end.

Definition sub (a b : num) : num := add a (neg b).

(** Sign of an infinite product or quotient: the finite operand is positive
    (or the zero, which stands for +0), negative, or makes the result NaN. *)
Definition inf_signed (positive : bool) : num :=
  if positive then PInf else NInf.

Definition mul (a b : num) : num :=
  match a, b with
  | Fin x, Fin y => Fin (x * y)
  | NaN, _ | _, NaN => NaN
  | PInf, PInf | NInf, NInf => PInf
  | PInf, NInf | NInf, PInf => NInf
  | PInf, Fin x | Fin x, PInf =>
      if Req_dec_T x 0 then NaN else inf_signed (if Rlt_dec 0 x then true else false)
  | NInf, Fin x | Fin x, NInf =>
      if Req_dec_T x 0 then NaN else inf_signed (if Rlt_dec 0 x then false else true)
  end.

Definition div (a b : num) : num :=
  match a, b with
  | Fin x, Fin y =>
      if Req_dec_T y 0 then
        (if Req_dec_T x 0 then NaN
         else inf_signed (if Rlt_dec 0 x then true else false))
      else Fin (x / y)
  | NaN, _ | _, NaN => NaN
  | Fin _, PInf | Fin _, NInf => Fin 0
  | PInf, Fin y => inf_signed (if Rlt_dec y 0 then false else true)
  | NInf, Fin y => inf_signed (if Rlt_dec y 0 then true else false)
  | _, _ => NaN
  end.

(** [a < b] and [a > b] as JavaScript evaluates them: false as soon as one
    side is NaN. *)
Definition ltb (a b : num) : bool :=
  match a, b with
  | Fin x, Fin y => if Rlt_dec x y then true else false
  | NaN, _ | _, NaN => false
  | PInf, _ | _, NInf => false
  | NInf, _ | _, PInf => true
  end.

Definition gtb (a b : num) : bool := ltb b a.

(** The order [a <= b] on numbers as a proposition (false on NaN). *)
Definition le (a b : num) : Prop :=
  match a, b with
  | Fin x, Fin y => x <= y
  | NaN, _ | _, NaN => False
  | NInf, _ | _, PInf => True
  | _, _ => False
  end.

Definition Math_PI : num := Fin PI.

Definition Math_sqrt (a : num) : num :=
  match a with
  | Fin x => if Rlt_dec x 0 then NaN else Fin (sqrt x)
  | PInf => PInf
  | NInf | NaN => NaN
  end.

Definition Math_min (a b : num) : num :=
  match a, b with
  | NaN, _ | _, NaN => NaN
  | Fin x, Fin y => Fin (Rmin x y)
  | NInf, _ | _, NInf => NInf
  | PInf, c | c, PInf => c
  end.

(** Integral exponents, for the powers of a negative base. *)
Definition is_integer (y : R) : bool :=
  if Req_dec_T (IZR (Int_part y)) y then true else false.

Definition is_odd_integer (y : R) : bool :=
  is_integer y && Z.odd (Int_part y).

(** [Math.pow], following the case list of ECMAScript's
    Number::exponentiate; the last case, which the standard leaves to an
    approximation, is the exact power. *)
Definition Math_pow (base exponent : num) : num :=
  match exponent with
  | NaN => NaN
  | Fin y =>
      if Req_dec_T y 0 then Fin 1 else
      match base with
      | NaN => NaN
      | PInf => if Rlt_dec 0 y then PInf else Fin 0
      | NInf =>
          if Rlt_dec 0 y
          then (if is_odd_integer y then NInf else PInf)
          else Fin 0
      | Fin x =>
          if Req_dec_T x 0 then (if Rlt_dec 0 y then Fin 0 else PInf)
          else if Rlt_dec 0 x then Fin (Rpower x y)
          else if is_integer y then Fin (powerRZ x (Int_part y))
          else NaN
      end
  | PInf =>
      match base with
      | NaN => NaN
      | PInf | NInf => PInf
      | Fin x =>
          if Rlt_dec 1 (Rabs x) then PInf
          else if Req_dec_T (Rabs x) 1 then NaN
          else Fin 0
      end
  | NInf =>
      match base with
      | NaN => NaN
      | PInf | NInf => Fin 0
      | Fin x =>
          if Rlt_dec 1 (Rabs x) then Fin 0
          else if Req_dec_T (Rabs x) 1 then NaN
          else PInf
      end
  end.

Infix "+" := add : num_scope.
Infix "-" := sub : num_scope.
Infix "*" := mul : num_scope.
Infix "/" := div : num_scope.
Infix "<?" := ltb (at level 70, no associativity) : num_scope.
Infix ">?" := gtb (at level 70, no associativity) : num_scope.

(** A loop counter used as a number. *)
Definition of_nat (i : nat) : num := Fin (INR i).

(* ================================================================= *)
(** ** Data model ([types.ts]) *)

Record FracInputs : Type := mkInputs {
  E : num;          (* Young's modulus *)
  nu : num;         (* Poisson's ratio *)
  sigma_min : num;  (* minimum horizontal stress *)
  CL : num;         (* Carter leakoff coefficient *)
  mu : num;         (* viscosity *)
  q : num;          (* injection rate *)
  H : num;          (* fracture height *)
  K_IC : num;       (* fracture toughness *)
  time : num;       (* injection time *)
  p_limit : num;    (* pressure limit *)
  depth : num       (* true vertical depth *)
}.

Inductive ModelType : Type := PKN | KGD | RADIAL.

Record TimeStep : Type := mkTimeStep {
  ts_time : num;
  ts_length : num;
  ts_width : num;
  ts_pressure : num
}.

Record ProfilePoint : Type := mkProfilePoint {
  pp_position : num;
  pp_width : num
}.

Inductive Regime : Type := Viscosity | Toughness | LeakoffDominated.

Record ModelResult : Type := mkResult {
  type : ModelType;
  length : num;
  width_avg : num;
  width_max : num;
  p_net : num;
  p_well : num;
  efficiency : num;
  volume_injected : num;
  volume_leakoff : num;
  regime : Regime;
  warnings : list string;
  timeSeries : list TimeStep;
  profile : list ProfilePoint
}.

Record SensitivityData : Type := mkSensitivity {
  parameter : string;
  factor : num;
  L_change : num;
  w_change : num;
  p_change : num
}.

(** [keyof FracInputs], with the bracket read [inputs[key]] and the spread
    update [{ ...inputs, [key]: v }]. *)
Inductive InputKey : Type :=
| kE | knu | ksigma_min | kCL | kmu | kq | kH | kK_IC | ktime | kp_limit | kdepth.

Definition key_name (k : InputKey) : string :=
  match k with
  | kE => "E" | knu => "nu" | ksigma_min => "sigma_min" | kCL => "CL"
  | kmu => "mu" | kq => "q" | kH => "H" | kK_IC => "K_IC" | ktime => "time"
  | kp_limit => "p_limit" | kdepth => "depth"
  end%string.

Definition get_key (inputs : FracInputs) (k : InputKey) : num :=
  match k with
  | kE => E inputs | knu => nu inputs | ksigma_min => sigma_min inputs
  | kCL => CL inputs | kmu => mu inputs | kq => q inputs | kH => H inputs
  | kK_IC => K_IC inputs | ktime => time inputs | kp_limit => p_limit inputs
  | kdepth => depth inputs
  end.

Definition set_key (inputs : FracInputs) (k : InputKey) (v : num) : FracInputs :=
  let '(mkInputs e n s c m r h kic t pl d) := inputs in
  match k with
  | kE => mkInputs v n s c m r h kic t pl d
  | knu => mkInputs e v s c m r h kic t pl d
  | ksigma_min => mkInputs e n v c m r h kic t pl d
  | kCL => mkInputs e n s v m r h kic t pl d
  | kmu => mkInputs e n s c v r h kic t pl d
  | kq => mkInputs e n s c m v h kic t pl d
  | kH => mkInputs e n s c m r v kic t pl d
  | kK_IC => mkInputs e n s c m r h v t pl d
  | ktime => mkInputs e n s c m r h kic v pl d
  | kp_limit => mkInputs e n s c m r h kic t v d
  | kdepth => mkInputs e n s c m r h kic t pl v
  end.

(** The value a solver closure returns: [{ L, p, w }]. *)
Record SolverOut : Type := mkOut {
  out_L : num;
  out_p : num;
  out_w : num
}.

(** How a call ends: with a value, or with a thrown error. *)
Inductive Completion (A : Type) : Type :=
| Normal (v : A)
| Throw (reason : string).
Arguments Normal {A} v.
Arguments Throw {A} reason.

(* ================================================================= *)
(** ** Loops *)

(** [for (let i = start; ...; i++) { acc.push(body(i)) }] run [count] times. *)
Fixpoint for_push {A : Type} (body : nat -> A) (start count : nat)
    (acc : list A) : list A :=
  match count with
  | O => acc
  | S count' => for_push body (S start) count' (acc ++ [body start])
  end.

(** [xs.forEach(f)] on a state threaded through the callback. *)
Fixpoint forEach {A S : Type} (xs : list A) (f : A -> S -> S) (s : S) : S :=
  match xs with
  | [] => s
  | x :: xs' => forEach xs' f (f x s)
  end.

(* ================================================================= *)
(** ** The engine ([services/fractureService]) *)

Definition getEPrime (E nu : num) : num :=
  (E / (1 - Math_pow nu 2))%num.

Definition checkRegime (type : ModelType) (E_prime mu q K_IC R_or_L H : num)
    : Regime :=
  let toughnessScore := (K_IC / (mu * q * 1e6))%num in
  if (toughnessScore >? 100)%num then Toughness else Viscosity.

Definition steps : nat := 50.

Definition generateHistory (totalTime : num) (calcAtTime : num -> SolverOut)
    : list TimeStep :=
  for_push
    (fun i =>
       let t := ((totalTime / of_nat steps) * of_nat i)%num in
       let res := calcAtTime t in
       {| ts_time := t;
          ts_length := out_L res;
          ts_width := out_w res;
          ts_pressure := out_p res |})
    1 steps [].

Definition points : nat := 50.

Definition generateProfile (L w_max shapeExponent : num) : list ProfilePoint :=
  for_push
    (fun i =>
       let x := ((L / of_nat points) * of_nat i)%num in
       let x_norm := (x / L)%num in
       let w := (w_max * Math_pow (1 - x_norm) shapeExponent)%num in
       {| pp_position := x; pp_width := w |})
    0 (S points) [].

(** *** PKN *)

Definition PKN_L_no_leakoff (inputs : FracInputs) (t : num) : num :=
  let Ep := getEPrime (E inputs) (nu inputs) in
  (0.68 * Math_pow ((Math_pow (q inputs) 3 * Ep)
                    / (mu inputs * Math_pow (H inputs) 4)) 0.2
   * Math_pow t 0.8)%num.

Definition PKN_L_high_leakoff (inputs : FracInputs) (t : num) : num :=
  ((q inputs * Math_sqrt t) / (2 * Math_PI * CL inputs * H inputs))%num.

Definition solvePKN (inputs : FracInputs) (t : num) : SolverOut :=
  let Ep := getEPrime (E inputs) (nu inputs) in
  let L_no_leakoff := PKN_L_no_leakoff inputs t in
  let L_high_leakoff := PKN_L_high_leakoff inputs t in
  let L := (1 / (1 / L_no_leakoff + 1 / L_high_leakoff))%num in
  let p_net :=
    (2.5 * Math_pow ((mu inputs * q inputs * L) / Math_pow (H inputs) 4) 0.25
     * Math_pow Ep 0.75)%num in
  let w_max := ((3 * p_net * H inputs) / Ep)%num in
  {| out_L := L; out_p := p_net; out_w := w_max |}.

Definition PKN_w_avg (inputs : FracInputs) : num :=
  let final := solvePKN inputs (time inputs) in
  ((Math_PI / 4) * out_w final * 0.8)%num.

Definition PKN_V_frac (inputs : FracInputs) : num :=
  let final := solvePKN inputs (time inputs) in
  (out_L final * H inputs * PKN_w_avg inputs * 2)%num.

Definition calculatePKN (inputs : FracInputs) : ModelResult :=
  let Ep := getEPrime (E inputs) (nu inputs) in
  let final := solvePKN inputs (time inputs) in
  let w_avg := PKN_w_avg inputs in
  let Vi := (q inputs * time inputs)%num in
  let V_frac := PKN_V_frac inputs in
  {| type := PKN;
     length := out_L final;
     width_avg := w_avg;
     width_max := out_w final;
     p_net := out_p final;
     p_well := (sigma_min inputs + out_p final)%num;
     efficiency := Math_min 1 (V_frac / Vi)%num;
     volume_injected := Vi;
     volume_leakoff := (Vi - V_frac)%num;
     regime := checkRegime PKN Ep (mu inputs) (q inputs) (K_IC inputs)
                 (out_L final) (H inputs);
     warnings :=
       if (out_L final <? 2 * H inputs)%num
       then ["L < 2H: PKN assumption violated (Short fracture)."%string]
       else [];
     timeSeries := generateHistory (time inputs) (solvePKN inputs);
     profile := generateProfile (out_L final) (out_w final) 0.25 |}.

(** *** KGD *)

Definition KGD_L_no_leakoff (inputs : FracInputs) (t : num) : num :=
  let Ep := getEPrime (E inputs) (nu inputs) in
  (0.48 * Math_pow ((Ep * Math_pow (q inputs) 3)
                    / (mu inputs * Math_pow (H inputs) 3)) (1 / 6)
   * Math_pow t (2 / 3))%num.

Definition KGD_L_high_leakoff (inputs : FracInputs) (t : num) : num :=
  ((q inputs * Math_sqrt t) / (2 * Math_PI * CL inputs * H inputs))%num.

Definition solveKGD (inputs : FracInputs) (t : num) : SolverOut :=
  let Ep := getEPrime (E inputs) (nu inputs) in
  let L_no_leakoff := KGD_L_no_leakoff inputs t in
  let L_high_leakoff := KGD_L_high_leakoff inputs t in
  let L := (1 / (1 / L_no_leakoff + 1 / L_high_leakoff))%num in
  let w_max :=
    (1.32 * Math_pow ((mu inputs * q inputs * Math_pow L 2)
                      / (Ep * H inputs)) 0.25)%num in
  let p_net := ((Ep * w_max) / (4 * L))%num in
  {| out_L := L; out_p := p_net; out_w := w_max |}.

Definition KGD_w_avg (inputs : FracInputs) : num :=
  let final := solveKGD inputs (time inputs) in
  ((Math_PI / 4) * out_w final)%num.

Definition KGD_V_frac (inputs : FracInputs) : num :=
  let final := solveKGD inputs (time inputs) in
  (2 * out_L final * H inputs * KGD_w_avg inputs)%num.

Definition calculateKGD (inputs : FracInputs) : ModelResult :=
  let Ep := getEPrime (E inputs) (nu inputs) in
  let final := solveKGD inputs (time inputs) in
  let w_avg := KGD_w_avg inputs in
  let Vi := (q inputs * time inputs)%num in
  let V_frac := KGD_V_frac inputs in
  {| type := KGD;
     length := out_L final;
     width_avg := w_avg;
     width_max := out_w final;
     p_net := out_p final;
     p_well := (sigma_min inputs + out_p final)%num;
     efficiency := Math_min 1 (V_frac / Vi)%num;
     volume_injected := Vi;
     volume_leakoff := (Vi - V_frac)%num;
     regime := checkRegime KGD Ep (mu inputs) (q inputs) (K_IC inputs)
                 (out_L final) (H inputs);
     warnings :=
       if (out_L final >? H inputs)%num
       then ["L > H: KGD assumption violated (Long fracture)."%string]
       else [];
     timeSeries := generateHistory (time inputs) (solveKGD inputs);
     profile := generateProfile (out_L final) (out_w final) 0.5 |}.

(** *** Radial *)

Definition Radial_R_no_leakoff (inputs : FracInputs) (t : num) : num :=
  let Ep := getEPrime (E inputs) (nu inputs) in
  (0.52 * Math_pow ((Ep * Math_pow (q inputs) 3) / mu inputs) (1 / 9)
   * Math_pow t (4 / 9))%num.

Definition Radial_R_high_leakoff (inputs : FracInputs) (t : num) : num :=
  Math_sqrt (q inputs * Math_sqrt t / (Math_PI * Math_PI * CL inputs))%num.

Definition solveRadial (inputs : FracInputs) (t : num) : SolverOut :=
  let Ep := getEPrime (E inputs) (nu inputs) in
  let R_no_leakoff := Radial_R_no_leakoff inputs t in
  let R_high_leakoff := Radial_R_high_leakoff inputs t in
  let R := (1 / (1 / R_no_leakoff + 1 / R_high_leakoff))%num in
  let p_net :=
    (1.25 * Math_pow ((mu inputs * q inputs * Math_pow Ep 2)
                      / Math_pow R 3) 0.25)%num in
  let w_max := ((8 * p_net * R) / (Math_PI * Ep))%num in
  {| out_L := R; out_p := p_net; out_w := w_max |}.

Definition Radial_w_avg (inputs : FracInputs) : num :=
  let final := solveRadial inputs (time inputs) in
  (2 / 3 * out_w final)%num.

Definition Radial_V_frac (inputs : FracInputs) : num :=
  let final := solveRadial inputs (time inputs) in
  ((Math_PI * out_L final * out_L final) * Radial_w_avg inputs)%num.

Definition calculateRadial (inputs : FracInputs) : ModelResult :=
  let Ep := getEPrime (E inputs) (nu inputs) in
  let final := solveRadial inputs (time inputs) in
  let w_avg := Radial_w_avg inputs in
  let Vi := (q inputs * time inputs)%num in
  let V_frac := Radial_V_frac inputs in
  {| type := RADIAL;
     length := out_L final;
     width_avg := w_avg;
     width_max := out_w final;
     p_net := out_p final;
     p_well := (sigma_min inputs + out_p final)%num;
     efficiency := Math_min 1 (V_frac / Vi)%num;
     volume_injected := Vi;
     volume_leakoff := (Vi - V_frac)%num;
     regime := checkRegime RADIAL Ep (mu inputs) (q inputs) (K_IC inputs)
                 (out_L final) 0;
     warnings := [];
     timeSeries := generateHistory (time inputs) (solveRadial inputs);
     profile := generateProfile (out_L final) (out_w final) 0.5 |}.

(** *** Sensitivity *)

Definition sensitivity_params : list InputKey := [kmu; kq; ksigma_min; kCL].

(** The factors [[0.5, 2.0]]; the literal 2.0 is the number 2. *)
Definition sensitivity_factors : list num := [Fin 0.5; Fin 2].

Definition sensitivity_calcFn (baseResult : ModelResult)
    : FracInputs -> ModelResult :=
  match type baseResult with
  | PKN => calculatePKN
  | KGD => calculateKGD
  | RADIAL => calculateRadial
  end.

Definition sensitivity_row (inputs : FracInputs) (baseResult : ModelResult)
    (param : InputKey) (factor : num) : SensitivityData :=
  let calcFn := sensitivity_calcFn baseResult in
  let newInputs := set_key inputs param (get_key inputs param * factor)%num in
  let res := calcFn newInputs in
  {| parameter := key_name param;
     factor := factor;
     L_change :=
       (((length res - length baseResult) / length baseResult) * 100)%num;
     w_change :=
       (((width_avg res - width_avg baseResult) / width_avg baseResult)
        * 100)%num;
     p_change :=
       (((p_net res - p_net baseResult) / p_net baseResult) * 100)%num |}.

Definition runSensitivity (inputs : FracInputs) (baseResult : ModelResult)
    : list SensitivityData :=
  forEach sensitivity_params
    (fun param results =>
       forEach sensitivity_factors
         (fun factor results =>
            results ++ [sensitivity_row inputs baseResult param factor])
         results)
    [].

(* ================================================================= *)
(** ** The computation entry point ([App.tsx]) *)

(** The [switch (selectedModel)] of the recalculation effect. *)
Definition dispatch (selectedModel : ModelType) (siInputs : FracInputs)
    : ModelResult :=
  match selectedModel with
  | KGD => calculateKGD siInputs
  | RADIAL => calculateRadial siInputs
  | PKN => calculatePKN siInputs
  end.

(** The entry point as a call that could end in a failure: nothing on the
    path from the inputs to the stored result validates or throws, so every
    call ends normally with the solver's result. *)
Definition compute (selectedModel : ModelType) (siInputs : FracInputs)
    : Completion ModelResult :=
  Normal (dispatch selectedModel siInputs).

(** The sensitivity rows the effect stores next to the result. *)
Definition sensitivity (selectedModel : ModelType) (siInputs : FracInputs)
    : list SensitivityData :=
  runSensitivity siInputs (dispatch selectedModel siInputs).

(* ================================================================= *)
(** ** Valid inputs *)

Definition positive (x : num) : Prop :=
  match x with
  | Fin r => 0 < r
  | _ => False
  end.

Definition strictly_between (lo hi : R) (x : num) : Prop :=
  match x with
  | Fin r => lo < r < hi
  | _ => False
  end.

(** The invariant of the input set: positive modulus, viscosity, rate,
    height, leakoff coefficient and time, and Poisson's ratio in (-1, 0.5). *)
Record valid_inputs (i : FracInputs) : Prop := mkValid {
  valid_E : positive (E i);
  valid_nu : strictly_between (-1) 0.5 (nu i);
  valid_mu : positive (mu i);
  valid_q : positive (q i);
  valid_H : positive (H i);
  valid_CL : positive (CL i);
  valid_time : positive (time i)
}.

(** The full physical domain adds a positive toughness. *)
Definition in_domain (i : FracInputs) : Prop :=
  valid_inputs i /\ positive (K_IC i).

(** What the selected solver computes, per model. *)
Definition solver (m : ModelType) : FracInputs -> num -> SolverOut :=
  match m with
  | PKN => solvePKN
  | KGD => solveKGD
  | RADIAL => solveRadial
  end.

Definition no_leakoff_extent (m : ModelType) : FracInputs -> num -> num :=
  match m with
  | PKN => PKN_L_no_leakoff
  | KGD => KGD_L_no_leakoff
  | RADIAL => Radial_R_no_leakoff
  end.

Definition high_leakoff_extent (m : ModelType) : FracInputs -> num -> num :=
  match m with
  | PKN => PKN_L_high_leakoff
  | KGD => KGD_L_high_leakoff
  | RADIAL => Radial_R_high_leakoff
  end.

Definition contained_volume (m : ModelType) : FracInputs -> num :=
  match m with
  | PKN => PKN_V_frac
  | KGD => KGD_V_frac
  | RADIAL => Radial_V_frac
  end.

(** The constants of [constants.ts] used as the running example. *)
Definition INITIAL_INPUTS : FracInputs :=
  {| E := 30e9; nu := 0.25; sigma_min := 40e6; CL := 5e-5; mu := 0.1;
     q := 0.05; H := 30; K_IC := 1e6; time := 1800; p_limit := 70e6;
     depth := 2500 |}.

(** The running example with the elapsed time set to zero: outside the
    domain. *)
Definition zero_time_inputs : FracInputs := set_key INITIAL_INPUTS ktime 0.

(** A unit-sized valid input whose PKN fracture holds more fluid than was
    injected. *)
Definition anomaly_inputs : FracInputs :=
  {| E := 1; nu := 0; sigma_min := 1; CL := 0.01; mu := 1;
     q := 1; H := 1; K_IC := 1; time := 1; p_limit := 1; depth := 1 |}.

(** Neither NaN nor an infinity. *)
Definition finite (x : num) : Prop :=
  match x with
  | Fin _ => True
  | _ => False
  end.


(* ================================================================= *)
(** ** Unit conversion ([utils/unitConversion.ts]) *)

Inductive UnitSystem : Type := SI | FIELD.

Definition UnitSystem_eqb (a b : UnitSystem) : bool :=
  match a, b with
  | SI, SI | FIELD, FIELD => true
  | _, _ => false
  end.

(** The unit categories, the keys of [UNIT_CONFIG[system]]. *)
Module Category.
Inductive t : Type :=
| pressure | rate | viscosity | length | width | toughness | leakoff | time
| dimensionless.
End Category.

Record UnitDef : Type := mkUnit {
  label : string;
  toSI : num
}.

Definition UNIT_CONFIG (system : UnitSystem) (category : Category.t) : UnitDef :=
  match system, category with
  | SI, Category.pressure => mkUnit "Pa" 1
  | SI, Category.rate => mkUnit "m³/s" 1
  | SI, Category.viscosity => mkUnit "Pa.s" 1
  | SI, Category.length => mkUnit "m" 1
  | SI, Category.width => mkUnit "mm" 0.001
  | SI, Category.toughness => mkUnit "Pa.m^0.5" 1
  | SI, Category.leakoff => mkUnit "m/s^0.5" 1
  | SI, Category.time => mkUnit "s" 1
  | SI, Category.dimensionless => mkUnit "-" 1
  | FIELD, Category.pressure => mkUnit "psi" 6894.76
  | FIELD, Category.rate => mkUnit "bpm" 0.00264979
  | FIELD, Category.viscosity => mkUnit "cp" 0.001
  | FIELD, Category.length => mkUnit "ft" 0.3048
  | FIELD, Category.width => mkUnit "in" 0.0254
  | FIELD, Category.toughness => mkUnit "psi.in^0.5" 1098.84
  | FIELD, Category.leakoff => mkUnit "ft/min^0.5" 0.0393396
  | FIELD, Category.time => mkUnit "min" 60
  | FIELD, Category.dimensionless => mkUnit "-" 1
  end%string.

Definition PARAM_UNIT_MAP (k : InputKey) : Category.t :=
  match k with
  | kE => Category.pressure
  | knu => Category.dimensionless
  | ksigma_min => Category.pressure
  | kCL => Category.leakoff
  | kmu => Category.viscosity
  | kq => Category.rate
  | kH => Category.length
  | kK_IC => Category.toughness
  | ktime => Category.time
  | kp_limit => Category.pressure
  | kdepth => Category.length
  end.

Definition convertValue (val : num) (category : Category.t)
    (fromSys toSys : UnitSystem) : num :=
  if UnitSystem_eqb fromSys toSys then val
  else
    let fromFactor := toSI (UNIT_CONFIG fromSys category) in
    let toFactor := toSI (UNIT_CONFIG toSys category) in
    ((val * fromFactor) / toFactor)%num.

(** [Object.keys(inputs)]: the keys in the order of the object literal. *)
Definition Object_keys : list InputKey :=
  [kE; knu; ksigma_min; kCL; kmu; kq; kH; kK_IC; ktime; kp_limit; kdepth].

Definition convertInputs (inputs : FracInputs) (fromSys toSys : UnitSystem)
    : FracInputs :=
  forEach Object_keys
    (fun key newInputs =>
       set_key newInputs key
         (convertValue (get_key inputs key) (PARAM_UNIT_MAP key) fromSys toSys))
    inputs.

Definition getUnitLabel (param : InputKey) (system : UnitSystem) : string :=
  label (UNIT_CONFIG system (PARAM_UNIT_MAP param)).

Definition getLabel (category : Category.t) (system : UnitSystem) : string :=
  label (UNIT_CONFIG system category).

(* ================================================================= *)
(** ** The application state ([App.tsx], [InputsForm], [ResultsDashboard]) *)

(** [handleUnitChange]: the new inputs and the new unit system. *)
Definition handleUnitChange (inputs : FracInputs) (unitSystem newSystem : UnitSystem)
    : FracInputs * UnitSystem :=
  let converted := convertInputs inputs unitSystem newSystem in
  (converted, newSystem).

(** The recalculation effect: the result and the sensitivity rows it stores. *)
Definition recalculate (inputs : FracInputs) (selectedModel : ModelType)
    (unitSystem : UnitSystem) : ModelResult * list SensitivityData :=
  let siInputs := convertInputs inputs unitSystem SI in
  let res := dispatch selectedModel siInputs in
  let sens := runSensitivity siInputs res in
  (res, sens).

(** [update] of the inputs form: the inputs handed to [onChange]. *)
Definition update (inputs : FracInputs) (field : InputKey) (value : num)
    : FracInputs :=
  set_key inputs field value.

Definition toDisplay (unitSystem : UnitSystem) (val : num) (cat : Category.t)
    : num :=
  convertValue val cat SI unitSystem.

(** The pressure-limit flag of the dashboard, compared in display units. *)
Definition isLimitHit (inputs : FracInputs) (result : ModelResult)
    (unitSystem : UnitSystem) : bool :=
  let p_well_disp := toDisplay unitSystem (p_well result) Category.pressure in
  (p_well_disp >? p_limit inputs)%num.

(** [xs.filter((x, i) => f(x, i))], the index starting at [i]. *)
Fixpoint filter_index {A : Type} (f : A -> nat -> bool) (xs : list A) (i : nat)
    : list A :=
  match xs with
  | [] => []
  | x :: xs' =>
      if f x i then x :: filter_index f xs' (S i) else filter_index f xs' (S i)
  end.

(** The rows of the sensitivity table: [sensitivity.filter((_, i) => i < 8)]. *)
Definition sensitivity_table (sensitivity : list SensitivityData)
    : list SensitivityData :=
  filter_index (fun _ i => Nat.ltb i 8) sensitivity 0.

(* ================================================================= *)
(** ** Closed forms on positive reals *)




(** The percentage change of a value against itself, [(x - x) / x * 100]:
    zero for a finite non-zero value, NaN otherwise. *)
Definition pct_of_itself (x : num) : num :=
  match x with
  | Fin r => if Req_dec_T r 0 then NaN else Fin 0
  | _ => NaN
  end.

(* ================================================================= *)
(** ** The engine on binary64 numbers *)

(** The same functions of [services/fractureService], computed on the
    binary64 values of the primitive type [float]: the four operations and
    the square root round to nearest, ties to even, and a decimal literal
    denotes the nearest binary64 value, as in JavaScript. *)
Module Binary64.

Local Open Scope bool_scope.
Local Open Scope float_scope.

(** [Math.PI], the binary64 value nearest to pi. *)
Definition Math_PI : float := 0x1.921fb54442d18p+1.

(** A loop counter used as a number. *)
Definition of_nat (i : nat) : float :=
  PrimFloat.of_uint63 (Uint63.of_Z (Z.of_nat i)).

Definition Math_sqrt (x : float) : float := PrimFloat.sqrt x.

(** [Math.min] of two numbers: NaN if either is NaN, and -0 below +0. *)
Definition Math_min (a b : float) : float :=
  match Prim2SF a, Prim2SF b with
  | S754_nan, _ | _, S754_nan => nan
  | S754_zero true, S754_zero _ => a
  | S754_zero _, S754_zero _ => b
  | _, _ => if b <? a then b else a
  end.

(** Integral exponents, read off the mantissa [m] and the exponent [e] of
    the value [m * 2^e]. *)
Definition is_integer (y : float) : bool :=
  match Prim2SF y with
  | S754_zero _ => true
  | S754_finite _ m e =>
      if (0 <=? e)%Z then true else (Z.pos m mod 2 ^ (- e) =? 0)%Z
  | _ => false
  end.

Definition is_odd_integer (y : float) : bool :=
  match Prim2SF y with
  | S754_finite _ m e =>
      if (0 <? e)%Z then false
      else ((Z.pos m mod 2 ^ (- e) =? 0)%Z && Z.odd (Z.pos m / 2 ^ (- e)))
  | _ => false
  end.

Section Engine.

(** The value [Math.pow] returns where ECMAScript asks for an
    implementation-approximated result: a finite non-zero base and a finite
    non-zero exponent, the base negative only under an integral exponent. *)
Variable host : float -> float -> float.

(** [Math.pow], following the case list of Number::exponentiate. *)
Definition Math_pow (base exponent : float) : float :=
  match Prim2SF exponent with
  | S754_nan => nan
  | S754_zero _ => 1
  | _ =>
      match Prim2SF base with
      | S754_nan => nan
      | S754_infinity false => if 0 <? exponent then infinity else 0
      | S754_infinity true =>
          if 0 <? exponent
          then (if is_odd_integer exponent then neg_infinity else infinity)
          else (if is_odd_integer exponent then -0 else 0)
      | S754_zero false => if 0 <? exponent then 0 else infinity
      | S754_zero true =>
          if 0 <? exponent
          then (if is_odd_integer exponent then -0 else 0)
          else (if is_odd_integer exponent then neg_infinity else infinity)
      | S754_finite negative _ _ =>
          match Prim2SF exponent with
          | S754_infinity down =>
              if 1 <? PrimFloat.abs base then (if down then 0 else infinity)
              else if PrimFloat.abs base =? 1 then nan
              else (if down then infinity else 0)
          | _ =>
              if negative && negb (is_integer exponent) then nan
              else host base exponent
          end
      end
  end.


(** *** Data model ([types.ts]) *)

Record FracInputs : Type := mkInputs {
  E : float;
  nu : float;
  sigma_min : float;
  CL : float;
  mu : float;
  q : float;
  H : float;
  K_IC : float;
  time : float;
  p_limit : float;
  depth : float
}.

Record TimeStep : Type := mkTimeStep {
  ts_time : float;
  ts_length : float;
  ts_width : float;
  ts_pressure : float
}.

Record ProfilePoint : Type := mkProfilePoint {
  pp_position : float;
  pp_width : float
}.

Record ModelResult : Type := mkResult {
  type : ModelType;
  length : float;
  width_avg : float;
  width_max : float;
  p_net : float;
  p_well : float;
  efficiency : float;
  volume_injected : float;
  volume_leakoff : float;
  regime : Regime;
  warnings : list string;
  timeSeries : list TimeStep;
  profile : list ProfilePoint
}.

Record SolverOut : Type := mkOut {
  out_L : float;
  out_p : float;
  out_w : float
}.

(** *** The engine ([services/fractureService]) *)

Definition getEPrime (E nu : float) : float :=
  E / (1 - Math_pow nu 2).

Definition checkRegime (type : ModelType) (E_prime mu q K_IC R_or_L H : float)
    : Regime :=
  let toughnessScore := K_IC / (mu * q * 1e6) in
  if 100 <? toughnessScore then Toughness else Viscosity.

Definition generateHistory (totalTime : float) (calcAtTime : float -> SolverOut)
    : list TimeStep :=
  for_push
    (fun i =>
       let t := (totalTime / of_nat steps) * of_nat i in
       let res := calcAtTime t in
       {| ts_time := t;
          ts_length := out_L res;
          ts_width := out_w res;
          ts_pressure := out_p res |})
    1 steps [].

Definition generateProfile (L w_max shapeExponent : float) : list ProfilePoint :=
  for_push
    (fun i =>
       let x := (L / of_nat points) * of_nat i in
       let x_norm := x / L in
       let w := w_max * Math_pow (1 - x_norm) shapeExponent in
       {| pp_position := x; pp_width := w |})
    0 (S points) [].

Definition PKN_L_no_leakoff (inputs : FracInputs) (t : float) : float :=
  let Ep := getEPrime (E inputs) (nu inputs) in
  0.68 * Math_pow ((Math_pow (q inputs) 3 * Ep)
                   / (mu inputs * Math_pow (H inputs) 4)) 0.2
  * Math_pow t 0.8.

Definition PKN_L_high_leakoff (inputs : FracInputs) (t : float) : float :=
  (q inputs * Math_sqrt t) / (2 * Math_PI * CL inputs * H inputs).

Definition solvePKN (inputs : FracInputs) (t : float) : SolverOut :=
  let Ep := getEPrime (E inputs) (nu inputs) in
  let L_no_leakoff := PKN_L_no_leakoff inputs t in
  let L_high_leakoff := PKN_L_high_leakoff inputs t in
  let L := 1 / (1 / L_no_leakoff + 1 / L_high_leakoff) in
  let p_net :=
    2.5 * Math_pow ((mu inputs * q inputs * L) / Math_pow (H inputs) 4) 0.25
    * Math_pow Ep 0.75 in
  let w_max := (3 * p_net * H inputs) / Ep in
  {| out_L := L; out_p := p_net; out_w := w_max |}.

Definition PKN_w_avg (inputs : FracInputs) : float :=
  let final := solvePKN inputs (time inputs) in
  (Math_PI / 4) * out_w final * 0.8.

Definition PKN_V_frac (inputs : FracInputs) : float :=
  let final := solvePKN inputs (time inputs) in
  out_L final * H inputs * PKN_w_avg inputs * 2.

Definition calculatePKN (inputs : FracInputs) : ModelResult :=
  let Ep := getEPrime (E inputs) (nu inputs) in
  let final := solvePKN inputs (time inputs) in
  let w_avg := PKN_w_avg inputs in
  let Vi := q inputs * time inputs in
  let V_frac := PKN_V_frac inputs in
  {| type := PKN;
     length := out_L final;
     width_avg := w_avg;
     width_max := out_w final;
     p_net := out_p final;
     p_well := sigma_min inputs + out_p final;
     efficiency := Math_min 1 (V_frac / Vi);
     volume_injected := Vi;
     volume_leakoff := Vi - V_frac;
     regime := checkRegime PKN Ep (mu inputs) (q inputs) (K_IC inputs)
                 (out_L final) (H inputs);
     warnings :=
       if out_L final <? 2 * H inputs
       then ["L < 2H: PKN assumption violated (Short fracture)."%string]
       else [];
     timeSeries := generateHistory (time inputs) (solvePKN inputs);
     profile := generateProfile (out_L final) (out_w final) 0.25 |}.

Definition KGD_L_no_leakoff (inputs : FracInputs) (t : float) : float :=
  let Ep := getEPrime (E inputs) (nu inputs) in
  0.48 * Math_pow ((Ep * Math_pow (q inputs) 3)
                   / (mu inputs * Math_pow (H inputs) 3)) (1 / 6)
  * Math_pow t (2 / 3).

Definition KGD_L_high_leakoff (inputs : FracInputs) (t : float) : float :=
  (q inputs * Math_sqrt t) / (2 * Math_PI * CL inputs * H inputs).

Definition solveKGD (inputs : FracInputs) (t : float) : SolverOut :=
  let Ep := getEPrime (E inputs) (nu inputs) in
  let L_no_leakoff := KGD_L_no_leakoff inputs t in
  let L_high_leakoff := KGD_L_high_leakoff inputs t in
  let L := 1 / (1 / L_no_leakoff + 1 / L_high_leakoff) in
  let w_max :=
    1.32 * Math_pow ((mu inputs * q inputs * Math_pow L 2)
                     / (Ep * H inputs)) 0.25 in
  let p_net := (Ep * w_max) / (4 * L) in
  {| out_L := L; out_p := p_net; out_w := w_max |}.

Definition KGD_w_avg (inputs : FracInputs) : float :=
  let final := solveKGD inputs (time inputs) in
  (Math_PI / 4) * out_w final.

Definition KGD_V_frac (inputs : FracInputs) : float :=
  let final := solveKGD inputs (time inputs) in
  2 * out_L final * H inputs * KGD_w_avg inputs.

Definition calculateKGD (inputs : FracInputs) : ModelResult :=
  let Ep := getEPrime (E inputs) (nu inputs) in
  let final := solveKGD inputs (time inputs) in
  let w_avg := KGD_w_avg inputs in
  let Vi := q inputs * time inputs in
  let V_frac := KGD_V_frac inputs in
  {| type := KGD;
     length := out_L final;
     width_avg := w_avg;
     width_max := out_w final;
     p_net := out_p final;
     p_well := sigma_min inputs + out_p final;
     efficiency := Math_min 1 (V_frac / Vi);
     volume_injected := Vi;
     volume_leakoff := Vi - V_frac;
     regime := checkRegime KGD Ep (mu inputs) (q inputs) (K_IC inputs)
                 (out_L final) (H inputs);
     warnings :=
       if H inputs <? out_L final
       then ["L > H: KGD assumption violated (Long fracture)."%string]
       else [];
     timeSeries := generateHistory (time inputs) (solveKGD inputs);
     profile := generateProfile (out_L final) (out_w final) 0.5 |}.

Definition Radial_R_no_leakoff (inputs : FracInputs) (t : float) : float :=
  let Ep := getEPrime (E inputs) (nu inputs) in
  0.52 * Math_pow ((Ep * Math_pow (q inputs) 3) / mu inputs) (1 / 9)
  * Math_pow t (4 / 9).

Definition Radial_R_high_leakoff (inputs : FracInputs) (t : float) : float :=
  Math_sqrt (q inputs * Math_sqrt t / (Math_PI * Math_PI * CL inputs)).

Definition solveRadial (inputs : FracInputs) (t : float) : SolverOut :=
  let Ep := getEPrime (E inputs) (nu inputs) in
  let R_no_leakoff := Radial_R_no_leakoff inputs t in
  let R_high_leakoff := Radial_R_high_leakoff inputs t in
  let R := 1 / (1 / R_no_leakoff + 1 / R_high_leakoff) in
  let p_net :=
    1.25 * Math_pow ((mu inputs * q inputs * Math_pow Ep 2)
                     / Math_pow R 3) 0.25 in
  let w_max := (8 * p_net * R) / (Math_PI * Ep) in
  {| out_L := R; out_p := p_net; out_w := w_max |}.

Definition Radial_w_avg (inputs : FracInputs) : float :=
  let final := solveRadial inputs (time inputs) in
  2 / 3 * out_w final.

Definition Radial_V_frac (inputs : FracInputs) : float :=
  let final := solveRadial inputs (time inputs) in
  (Math_PI * out_L final * out_L final) * Radial_w_avg inputs.

Definition calculateRadial (inputs : FracInputs) : ModelResult :=
  let Ep := getEPrime (E inputs) (nu inputs) in
  let final := solveRadial inputs (time inputs) in
  let w_avg := Radial_w_avg inputs in
  let Vi := q inputs * time inputs in
  let V_frac := Radial_V_frac inputs in
  {| type := RADIAL;
     length := out_L final;
     width_avg := w_avg;
     width_max := out_w final;
     p_net := out_p final;
     p_well := sigma_min inputs + out_p final;
     efficiency := Math_min 1 (V_frac / Vi);
     volume_injected := Vi;
     volume_leakoff := Vi - V_frac;
     regime := checkRegime RADIAL Ep (mu inputs) (q inputs) (K_IC inputs)
                 (out_L final) 0;
     warnings := [];
     timeSeries := generateHistory (time inputs) (solveRadial inputs);
     profile := generateProfile (out_L final) (out_w final) 0.5 |}.

(** The [switch (selectedModel)] of the recalculation effect, and the entry
    point as a call that could end in a failure. *)
Definition dispatch (selectedModel : ModelType) (siInputs : FracInputs)
    : ModelResult :=
  match selectedModel with
  | KGD => calculateKGD siInputs
  | RADIAL => calculateRadial siInputs
  | PKN => calculatePKN siInputs
  end.

Definition compute (selectedModel : ModelType) (siInputs : FracInputs)
    : Completion ModelResult :=
  Normal (dispatch selectedModel siInputs).

(** What the selected solver computes, per model. *)
Definition solver (m : ModelType) : FracInputs -> float -> SolverOut :=
  match m with
  | PKN => solvePKN
  | KGD => solveKGD
  | RADIAL => solveRadial
  end.

Definition no_leakoff_extent (m : ModelType) : FracInputs -> float -> float :=
  match m with
  | PKN => PKN_L_no_leakoff
  | KGD => KGD_L_no_leakoff
  | RADIAL => Radial_R_no_leakoff
  end.

Definition high_leakoff_extent (m : ModelType) : FracInputs -> float -> float :=
  match m with
  | PKN => PKN_L_high_leakoff
  | KGD => KGD_L_high_leakoff
  | RADIAL => Radial_R_high_leakoff
  end.

Definition contained_volume (m : ModelType) : FracInputs -> float :=
  match m with
  | PKN => PKN_V_frac
  | KGD => KGD_V_frac
  | RADIAL => Radial_V_frac
  end.

Definition shape_exponent (m : ModelType) : float :=
  match m with
  | PKN => 0.25
  | KGD | RADIAL => 0.5
  end.

End Engine.

(** *** Valid inputs *)

(** Positive and finite. *)
Definition positive (x : float) : bool := (0 <? x) && (x <? infinity).

(** The invariant of the input set, as a test. *)
Definition valid_inputs (i : FracInputs) : bool :=
  positive (E i) && ((-1 <? nu i) && (nu i <? 0.5)) && positive (mu i)
  && positive (q i) && positive (H i) && positive (CL i) && positive (time i).

(** The constants of [constants.ts] used as the running example. *)
Definition INITIAL_INPUTS : FracInputs :=
  {| E := 30e9; nu := 0.25; sigma_min := 40e6; CL := 5e-5; mu := 0.1;
     q := 0.05; H := 30; K_IC := 1e6; time := 1800; p_limit := 70e6;
     depth := 2500 |}.

(** [{ ...inputs, time: t }], [{ ...inputs, CL: c }] and [{ ...inputs, q: r }]. *)
Definition with_time (i : FracInputs) (t : float) : FracInputs :=
  {| E := E i; nu := nu i; sigma_min := sigma_min i; CL := CL i; mu := mu i;
     q := q i; H := H i; K_IC := K_IC i; time := t; p_limit := p_limit i;
     depth := depth i |}.

Definition with_CL (i : FracInputs) (c : float) : FracInputs :=
  {| E := E i; nu := nu i; sigma_min := sigma_min i; CL := c; mu := mu i;
     q := q i; H := H i; K_IC := K_IC i; time := time i; p_limit := p_limit i;
     depth := depth i |}.


(** The running example with an elapsed time of 7 s, with a positive elapsed
    time so small that a fiftieth of it rounds to 0, and with a zero elapsed
    time. *)
Definition seven_second_inputs : FracInputs := with_time INITIAL_INPUTS 7.


Definition zero_time_inputs : FracInputs := with_time INITIAL_INPUTS 0.

(** The running example with a leakoff coefficient near the top of the
    binary64 range: pi * pi * CL overflows. *)
Definition overflow_inputs : FracInputs := with_CL INITIAL_INPUTS 1e308.



(** *** Unit conversion ([utils/unitConversion.ts]) and the dashboard *)

Definition get_key (inputs : FracInputs) (k : InputKey) : float :=
  match k with
  | kE => E inputs | knu => nu inputs | ksigma_min => sigma_min inputs
  | kCL => CL inputs | kmu => mu inputs | kq => q inputs | kH => H inputs
  | kK_IC => K_IC inputs | ktime => time inputs | kp_limit => p_limit inputs
  | kdepth => depth inputs
  end.

Definition set_key (inputs : FracInputs) (k : InputKey) (v : float)
    : FracInputs :=
  let '(mkInputs e n s c m r h kic t pl d) := inputs in
  match k with
  | kE => mkInputs v n s c m r h kic t pl d
  | knu => mkInputs e v s c m r h kic t pl d
  | ksigma_min => mkInputs e n v c m r h kic t pl d
  | kCL => mkInputs e n s v m r h kic t pl d
  | kmu => mkInputs e n s c v r h kic t pl d
  | kq => mkInputs e n s c m v h kic t pl d
  | kH => mkInputs e n s c m r v kic t pl d
  | kK_IC => mkInputs e n s c m r h v t pl d
  | ktime => mkInputs e n s c m r h kic v pl d
  | kp_limit => mkInputs e n s c m r h kic t v d
  | kdepth => mkInputs e n s c m r h kic t pl v
  end.

Record UnitDef : Type := mkUnit {
  label : string;
  toSI : float
}.

Definition UNIT_CONFIG (system : UnitSystem) (category : Category.t) : UnitDef :=
  match system, category with
  | SI, Category.pressure => mkUnit "Pa" 1
  | SI, Category.rate => mkUnit "m³/s" 1
  | SI, Category.viscosity => mkUnit "Pa.s" 1
  | SI, Category.length => mkUnit "m" 1
  | SI, Category.width => mkUnit "mm" 0.001
  | SI, Category.toughness => mkUnit "Pa.m^0.5" 1
  | SI, Category.leakoff => mkUnit "m/s^0.5" 1
  | SI, Category.time => mkUnit "s" 1
  | SI, Category.dimensionless => mkUnit "-" 1
  | FIELD, Category.pressure => mkUnit "psi" 6894.76
  | FIELD, Category.rate => mkUnit "bpm" 0.00264979
  | FIELD, Category.viscosity => mkUnit "cp" 0.001
  | FIELD, Category.length => mkUnit "ft" 0.3048
  | FIELD, Category.width => mkUnit "in" 0.0254
  | FIELD, Category.toughness => mkUnit "psi.in^0.5" 1098.84
  | FIELD, Category.leakoff => mkUnit "ft/min^0.5" 0.0393396
  | FIELD, Category.time => mkUnit "min" 60
  | FIELD, Category.dimensionless => mkUnit "-" 1
  end%string.

Definition convertValue (val : float) (category : Category.t)
    (fromSys toSys : UnitSystem) : float :=
  if UnitSystem_eqb fromSys toSys then val
  else
    let fromFactor := toSI (UNIT_CONFIG fromSys category) in
    let toFactor := toSI (UNIT_CONFIG toSys category) in
    (val * fromFactor) / toFactor.

Definition convertInputs (inputs : FracInputs) (fromSys toSys : UnitSystem)
    : FracInputs :=
  forEach Object_keys
    (fun key newInputs =>
       set_key newInputs key
         (convertValue (get_key inputs key) (PARAM_UNIT_MAP key) fromSys toSys))
    inputs.

Definition toDisplay (unitSystem : UnitSystem) (val : float) (cat : Category.t)
    : float :=
  convertValue val cat SI unitSystem.

(** The pressure-limit flag of the dashboard, compared in display units. *)
Definition isLimitHit (inputs : FracInputs) (result : ModelResult)
    (unitSystem : UnitSystem) : bool :=
  let p_well_disp := toDisplay unitSystem (p_well result) Category.pressure in
  p_limit inputs <? p_well_disp.

(** *** Classes of special values *)

(** A zero of either sign or NaN; an infinity of either sign or NaN. *)
Definition zero_or_nan (x : float) : Prop :=
  match Prim2SF x with
  | S754_zero _ | S754_nan => True
  | _ => False
  end.

Definition infinite_or_nan (x : float) : Prop :=
  match Prim2SF x with
  | S754_infinity _ | S754_nan => True
  | _ => False
  end.

End Binary64.

(* ================================================================= *)
(** ** Evaluating the number model on finite values *)

Lemma div_Fin (x y : R) : y <> 0 -> (Fin x / Fin y)%num = Fin (x / y).
Proof.
  intros Hy. unfold div. destruct (Req_dec_T y 0) as [H0 | _]; [contradiction | reflexivity].
Qed.

Lemma div_Fin_zero_pos (x : R) : 0 < x -> (Fin x / Fin 0)%num = PInf.
Proof.
  intros Hx. unfold div.
  destruct (Req_dec_T 0 0) as [_ | N]; [| contradiction N; reflexivity].
  destruct (Req_dec_T x 0) as [H0 | _]; [lra |].
  destruct (Rlt_dec 0 x) as [_ | N]; [reflexivity | contradiction].
Qed.

Lemma div_zero_zero : (Fin 0 / Fin 0)%num = NaN.
Proof.
  unfold div.
  destruct (Req_dec_T 0 0) as [_ | N]; [| contradiction N; reflexivity].
  reflexivity.
Qed.

Lemma pow_Fin_pos (x y : R) :
  0 < x -> y <> 0 -> Math_pow (Fin x) (Fin y) = Fin (Rpower x y).
Proof.
  intros Hx Hy. unfold Math_pow.
  destruct (Req_dec_T y 0) as [H0 | _]; [contradiction |].
  destruct (Req_dec_T x 0) as [H0 | _]; [lra |].
  destruct (Rlt_dec 0 x) as [_ | N]; [reflexivity | contradiction].
Qed.

Lemma pow_Fin_zero (y : R) : 0 < y -> Math_pow (Fin 0) (Fin y) = Fin 0.
Proof.
  intros Hy. unfold Math_pow.
  destruct (Req_dec_T y 0) as [H0 | _]; [lra |].
  destruct (Req_dec_T 0 0) as [_ | N]; [| contradiction N; reflexivity].
  destruct (Rlt_dec 0 y) as [_ | N]; [reflexivity | contradiction].
Qed.

Lemma Int_part_2 : Int_part 2 = 2%Z.
Proof. symmetry. apply Int_part_spec. simpl. lra. Qed.

(** [Math.pow(x, 2)] is the square, whatever the sign of [x]. *)
Lemma pow_Fin_square (x : R) : Math_pow (Fin x) (Fin 2) = Fin (x * x).
Proof.
  unfold Math_pow.
  destruct (Req_dec_T 2 0) as [H0 | _]; [lra |].
  destruct (Req_dec_T x 0) as [H0 | Hx].
  - destruct (Rlt_dec 0 2) as [_ | N]; [| lra]. subst x. f_equal. ring.
  - destruct (Rlt_dec 0 x) as [Hpos | Hneg].
    + f_equal. replace 2 with (INR 2) by (simpl; ring).
      rewrite Rpower_pow by assumption. simpl. ring.
    + unfold is_integer. rewrite Int_part_2.
      destruct (Req_dec_T (IZR 2) 2) as [_ | N]; [| contradiction N; reflexivity].
      f_equal. simpl. ring.
Qed.

Lemma sqrt_Fin (x : R) : 0 <= x -> Math_sqrt (Fin x) = Fin (sqrt x).
Proof.
  intros Hx. unfold Math_sqrt.
  destruct (Rlt_dec x 0) as [N | _]; [lra | reflexivity].
Qed.

Lemma ltb_Fin_true (x y : R) : (Fin x <? Fin y)%num = true <-> x < y.
Proof.
  unfold ltb. destruct (Rlt_dec x y); split; intros; try assumption;
    try reflexivity; try discriminate; contradiction.
Qed.

Lemma gtb_Fin_true (x y : R) : (Fin x >? Fin y)%num = true <-> x > y.
Proof. unfold gtb. apply ltb_Fin_true. Qed.

Lemma Rpower_base_1 (y : R) : Rpower 1 y = 1.
Proof. unfold Rpower. rewrite ln_1, Rmult_0_r. apply exp_0. Qed.

Lemma Rpower_pos (x y : R) : 0 < Rpower x y.
Proof. unfold Rpower. apply exp_pos. Qed.

(** Positivity of the closed-form expressions met in the solvers. *)
Ltac pos :=
  match goal with
  | |- _ <> 0 => apply Rgt_not_eq; unfold Rgt; pos
  | |- _ > 0 => unfold Rgt; pos
  | |- 0 <= _ => apply Rlt_le; pos
  | |- 0 < Rpower _ _ => apply Rpower_pos
  | |- 0 < sqrt _ => apply sqrt_lt_R0; pos
  | |- 0 < PI => apply PI_RGT_0
  | |- 0 < _ * _ => apply Rmult_lt_0_compat; pos
  | |- 0 < _ / _ => apply Rdiv_lt_0_compat; pos
  | |- 0 < / _ => apply Rinv_0_lt_compat; pos
  | |- 0 < _ + _ => apply Rplus_lt_0_compat; pos
  | |- _ => assumption
  | |- _ => lra
  | |- _ => nra
  end.

(** One step of evaluation of an operation applied to finite values. *)
Ltac num_step :=
  first
    [ rewrite pow_Fin_square
    | rewrite div_Fin by pos
    | rewrite pow_Fin_pos by pos
    | rewrite sqrt_Fin by pos
    | progress cbn [add sub mul neg] ].

Ltac num_eval := unfold Math_PI; repeat num_step.

(** Destructs the inputs and the validity record into real numbers. *)
Ltac valid_reals i Hv :=
  destruct i as [xE xnu xsig xCL xmu xq xH xK xT xpl xd];
  destruct Hv as [HE Hnu Hmu Hq HH HCL HT];
  cbn [E nu sigma_min CL mu q H K_IC time p_limit depth] in *;
  destruct xE as [xE | | |]; try contradiction;
  destruct xnu as [xnu | | |]; try contradiction;
  destruct xmu as [xmu | | |]; try contradiction;
  destruct xq as [xq | | |]; try contradiction;
  destruct xH as [xH | | |]; try contradiction;
  destruct xCL as [xCL | | |]; try contradiction;
  destruct xT as [xT | | |]; try contradiction;
  cbn [positive strictly_between] in *.




(** For valid inputs the two asymptotes of each model are positive,
    non-decreasing functions of the elapsed time, and the solver returns the
    harmonic combination of the two together with a positive net pressure and
    a positive maximum width. *)
Lemma solver_closed_form (m : ModelType) (i : FracInputs) :
  valid_inputs i ->
  exists a b : R -> R,
    (forall t, 0 < t ->
       0 < a t /\ 0 < b t /\
       no_leakoff_extent m i (Fin t) = Fin (a t) /\
       high_leakoff_extent m i (Fin t) = Fin (b t) /\
       exists p w,
         solver m i (Fin t) = mkOut (Fin (1 / (1 / a t + 1 / b t))) (Fin p) (Fin w)
         /\ 0 < p /\ 0 < w) /\
    (forall s t, 0 < s -> s <= t -> a s <= a t /\ b s <= b t).
Proof.
  intros Hv. valid_reals i Hv.
  assert (Hn2 : 0 < 1 - xnu * xnu) by nra.
  destruct m; cbn [no_leakoff_extent high_leakoff_extent solver].
  - (* PKN *)
    exists (fun t => 0.68 * Rpower (Rpower xq 3 * (xE / (1 - xnu * xnu)) / (xmu * Rpower xH 4)) 0.2
                     * Rpower t 0.8).
    exists (fun t => xq * sqrt t / (2 * PI * xCL * xH)).
    split.
    + intros t Ht. cbv beta.
      split; [pos |]. split; [pos |].
      unfold solvePKN, PKN_L_no_leakoff, PKN_L_high_leakoff, getEPrime.
      cbn [E nu sigma_min CL mu q H K_IC time p_limit depth].
      num_eval. split; [reflexivity |]. split; [reflexivity |].
      do 2 eexists. split; [reflexivity |]. split; pos.
    + intros s t Hs Hst. cbv beta. split.
      * apply Rmult_le_compat_l; [pos |]. apply Rle_Rpower_l; lra.
      * unfold Rdiv. apply Rmult_le_compat_r; [pos |].
        apply Rmult_le_compat_l; [lra |]. apply sqrt_le_1_alt; assumption.
  - (* KGD *)
    exists (fun t => 0.48 * Rpower (xE / (1 - xnu * xnu) * Rpower xq 3 / (xmu * Rpower xH 3)) (1 / 6)
                     * Rpower t (2 / 3)).
    exists (fun t => xq * sqrt t / (2 * PI * xCL * xH)).
    split.
    + intros t Ht. cbv beta.
      split; [pos |]. split; [pos |].
      unfold solveKGD, KGD_L_no_leakoff, KGD_L_high_leakoff, getEPrime.
      cbn [E nu sigma_min CL mu q H K_IC time p_limit depth].
      num_eval. split; [reflexivity |]. split; [reflexivity |].
      do 2 eexists. split; [reflexivity |]. split; pos.
    + intros s t Hs Hst. cbv beta. split.
      * apply Rmult_le_compat_l; [pos |]. apply Rle_Rpower_l; lra.
      * unfold Rdiv. apply Rmult_le_compat_r; [pos |].
        apply Rmult_le_compat_l; [lra |]. apply sqrt_le_1_alt; assumption.
  - (* Radial *)
    exists (fun t => 0.52 * Rpower (xE / (1 - xnu * xnu) * Rpower xq 3 / xmu) (1 / 9)
                     * Rpower t (4 / 9)).
    exists (fun t => sqrt (xq * sqrt t / (PI * PI * xCL))).
    split.
    + intros t Ht. cbv beta.
      split; [pos |]. split; [pos |].
      unfold solveRadial, Radial_R_no_leakoff, Radial_R_high_leakoff, getEPrime.
      cbn [E nu sigma_min CL mu q H K_IC time p_limit depth].
      num_eval. split; [reflexivity |]. split; [reflexivity |].
      do 2 eexists. split; [reflexivity |]. split; pos.
    + intros s t Hs Hst. cbv beta. split.
      * apply Rmult_le_compat_l; [pos |]. apply Rle_Rpower_l; lra.
      * apply sqrt_le_1_alt. unfold Rdiv. apply Rmult_le_compat_r; [pos |].
        apply Rmult_le_compat_l; [lra |]. apply sqrt_le_1_alt; assumption.
Qed.

(** The final state of the selected solver, for valid inputs. *)
Lemma final_state (m : ModelType) (i : FracInputs) :
  valid_inputs i ->
  exists T a b p w,
    time i = Fin T /\ 0 < T /\ 0 < a /\ 0 < b /\ 0 < p /\ 0 < w /\
    solver m i (time i) = mkOut (Fin (1 / (1 / a + 1 / b))) (Fin p) (Fin w).
Proof.
  intros Hv.
  destruct (solver_closed_form m i Hv) as (a & b & Hab & _).
  pose proof (valid_time i Hv) as HT.
  destruct (time i) as [T | | |]; try contradiction.
  cbn [positive] in HT.
  destruct (Hab T HT) as (Ha & Hb & _ & _ & p & w & Hs & Hp & Hw).
  exists T, (a T), (b T), p, w. repeat split; assumption.
Qed.

(** The fields of the dispatched result in terms of the selected solver. *)
Lemma dispatch_final (m : ModelType) (i : FracInputs) :
  length (dispatch m i) = out_L (solver m i (time i)) /\
  width_max (dispatch m i) = out_w (solver m i (time i)) /\
  p_net (dispatch m i) = out_p (solver m i (time i)).
Proof. destruct m; repeat split; reflexivity. Qed.

Lemma dispatch_volumes (m : ModelType) (i : FracInputs) :
  volume_injected (dispatch m i) = (q i * time i)%num /\
  volume_leakoff (dispatch m i) = (q i * time i - contained_volume m i)%num /\
  efficiency (dispatch m i)
  = Math_min 1 (contained_volume m i / (q i * time i))%num.
Proof. destruct m; repeat split; reflexivity. Qed.


(** Injected and contained volume are positive reals for valid inputs. *)
Lemma volumes_positive (m : ModelType) (i : FracInputs) :
  valid_inputs i ->
  exists vi vf,
    0 < vi /\ 0 < vf /\
    (q i * time i)%num = Fin vi /\ contained_volume m i = Fin vf.
Proof.
  intros Hv.
  destruct (final_state m i Hv)
    as (T & a & b & p & w & ET & HpT & Ha & Hb & Hp & Hw & Hs).
  valid_reals i Hv. injection ET as <-.
  destruct m; cbn [contained_volume solver] in *;
    unfold PKN_V_frac, PKN_w_avg, KGD_V_frac, KGD_w_avg,
      Radial_V_frac, Radial_w_avg;
    cbn [E nu sigma_min CL mu q H K_IC time p_limit depth];
    rewrite Hs; cbn [out_L out_p out_w]; num_eval;
    do 2 eexists; refine (conj _ (conj _ (conj eq_refl eq_refl))); pos.
Qed.

(* ================================================================= *)
(** ** Asymptotic matching *)



(* ================================================================= *)
(** ** Efficiency and volume balance *)

(** C4. For every valid input and each model, the injected volume is
    [q * time] and the leaked-off volume is the injected volume minus the
    contained volume, without a clamp: whenever the contained volume exceeds
    the injected volume, the efficiency is 1 and the leaked-off volume is
    negative. *)
Theorem leakoff_volume_unclamped (m : ModelType) (i : FracInputs) :
  valid_inputs i ->
  volume_injected (dispatch m i) = (q i * time i)%num
  /\ volume_leakoff (dispatch m i)
     = (volume_injected (dispatch m i) - contained_volume m i)%num
  /\ ((contained_volume m i >? volume_injected (dispatch m i))%num = true ->
      efficiency (dispatch m i) = Fin 1
      /\ (volume_leakoff (dispatch m i) <? 0)%num = true).
Proof.
  intros Hv.
  destruct (volumes_positive m i Hv) as (vi & vf & Hvi & Hvf & Ei & Ef).
  destruct (dispatch_volumes m i) as (-> & -> & ->).
  split; [reflexivity |]. split; [reflexivity |].
  rewrite Ei, Ef. intros Hgt. apply gtb_Fin_true in Hgt.
  rewrite div_Fin by pos. cbn [Math_min sub add neg]. split.
  - f_equal. apply Rmin_left.
    apply Rmult_le_reg_r with vi; [assumption |].
    unfold Rdiv. rewrite Rmult_assoc, Rinv_l by pos. lra.
  - apply ltb_Fin_true. lra.
Qed.

(** *** A valid input that saturates the efficiency *)

Lemma Rpower_ge_self (x y : R) : 0 < x <= 1 -> 0 < y <= 1 -> x <= Rpower x y.
Proof.
  intros Hx Hy.
  rewrite <- (Rpower_1 x) at 1 by lra.
  unfold Rpower.
  assert (Hln : ln x <= 0).
  { rewrite <- ln_1. destruct (proj2 Hx) as [Hlt | ->]; [| lra].
    left. apply ln_increasing; lra. }
  assert (Hle : 1 * ln x <= y * ln x) by nra.
  destruct Hle as [Hlt | ->];
    [left; apply exp_increasing; exact Hlt | right; reflexivity].
Qed.

Lemma PI_gt_3 : 3 < PI.
Proof. pose proof PI2_3_2. lra. Qed.

Lemma anomaly_L_no : PKN_L_no_leakoff anomaly_inputs (Fin 1) = Fin 0.68.
Proof.
  unfold PKN_L_no_leakoff, getEPrime.
  cbn [anomaly_inputs E nu sigma_min CL mu q H K_IC time p_limit depth].
  num_eval. f_equal. rewrite !Rpower_base_1.
  replace (1 * (1 / (1 + - (0 * 0))) / (1 * 1)) with 1 by (field; lra).
  rewrite Rpower_base_1. ring.
Qed.

Lemma anomaly_L_high :
  PKN_L_high_leakoff anomaly_inputs (Fin 1) = Fin (/ (0.02 * PI)).
Proof.
  unfold PKN_L_high_leakoff.
  cbn [anomaly_inputs E nu sigma_min CL mu q H K_IC time p_limit depth].
  num_eval. f_equal. rewrite sqrt_1. pose proof PI_RGT_0.
  replace 0.01 with (1 / 100) by lra. replace 0.02 with (2 / 100) by lra.
  field. lra.
Qed.

Lemma anomaly_final :
  exists L X,
    solvePKN anomaly_inputs (Fin 1)
    = mkOut (Fin L) (Fin (2.5 * X)) (Fin (7.5 * X))
    /\ 0.35 <= L /\ L <= X.
Proof.
  pose proof PI_gt_3 as Hpi3. pose proof PI_4 as Hpi4.
  unfold solvePKN. rewrite anomaly_L_no, anomaly_L_high. unfold getEPrime.
  cbn [anomaly_inputs E nu sigma_min CL mu q H K_IC time p_limit depth].
  num_eval.
  rewrite Rpower_base_1.
  replace (1 / (1 + - (0 * 0))) with 1 by (field; lra).
  rewrite Rpower_base_1.
  replace (1 / / (0.02 * PI)) with (0.02 * PI)
    by (unfold Rdiv; rewrite Rinv_inv; ring).
  set (D := 1 / 0.68 + 0.02 * PI).
  assert (HD : 1.47 < D < 1.56) by (unfold D; lra).
  replace (1 * 1 * (1 / D) / 1) with (1 / D) by (field; lra).
  assert (HL : 0.35 <= 1 / D <= 1).
  { split.
    - apply Rmult_le_reg_r with D; [lra |].
      unfold Rdiv. rewrite Rmult_assoc, Rinv_l by lra. lra.
    - apply Rmult_le_reg_r with D; [lra |].
      unfold Rdiv. rewrite Rmult_assoc, Rinv_l by lra. lra. }
  exists (1 / D), (Rpower (1 / D) 0.25).
  split; [| split].
  - f_equal; f_equal; lra.
  - lra.
  - apply Rpower_ge_self; lra.
Qed.

Lemma anomaly_contained_exceeds :
  (contained_volume PKN anomaly_inputs
   >? volume_injected (dispatch PKN anomaly_inputs))%num = true.
Proof.
  pose proof PI_gt_3 as Hpi3.
  destruct anomaly_final as (L & X & Hs & HL & HX).
  cbn [contained_volume dispatch calculatePKN volume_injected].
  unfold PKN_V_frac, PKN_w_avg.
  change (time anomaly_inputs) with (Fin 1). rewrite Hs.
  cbn [anomaly_inputs out_L out_w E nu sigma_min CL mu q H K_IC time p_limit depth].
  num_eval. apply gtb_Fin_true.
  assert (HLX : 0.35 * 0.35 <= L * X) by (apply Rmult_le_compat; lra).
  nra.
Qed.

Lemma leakoff_volume_unclamped_witness :
  valid_inputs anomaly_inputs
  /\ efficiency (dispatch PKN anomaly_inputs) = Fin 1
  /\ (volume_leakoff (dispatch PKN anomaly_inputs) <? 0)%num = true.
Proof.
  assert (Hv : valid_inputs anomaly_inputs) by (constructor; cbn; lra).
  split; [exact Hv |].
  apply (leakoff_volume_unclamped PKN anomaly_inputs Hv).
  exact anomaly_contained_exceeds.
Defined.

(* ================================================================= *)
(** ** Warnings and regime *)

(** C5. For every valid input, the PKN result carries a warning exactly when
    its length is below [2 * H], the KGD result exactly when its length is
    above [H], and the Radial result never. *)
Theorem geometry_warnings (i : FracInputs) :
  valid_inputs i ->
  exists h Lpkn Lkgd : R,
    H i = Fin h
    /\ length (calculatePKN i) = Fin Lpkn
    /\ length (calculateKGD i) = Fin Lkgd
    /\ (warnings (calculatePKN i) <> [] <-> Lpkn < 2 * h)
    /\ (warnings (calculateKGD i) <> [] <-> Lkgd > h)
    /\ warnings (calculateRadial i) = [].
Proof.
  intros Hv.
  destruct (final_state PKN i Hv) as (T & a & b & p & w & ET & _ & _ & _ & _ & _ & Hs).
  destruct (final_state KGD i Hv) as (T' & a' & b' & p' & w' & _ & _ & _ & _ & _ & _ & Hs').
  cbn [solver] in Hs, Hs'.
  pose proof (valid_H i Hv) as Hh.
  destruct (H i) as [h | | |] eqn:EH; try contradiction.
  exists h, (1 / (1 / a + 1 / b)), (1 / (1 / a' + 1 / b')).
  cbn [calculatePKN calculateKGD calculateRadial length warnings].
  rewrite Hs, Hs', EH. cbn [out_L mul].
  repeat split; try reflexivity.
  - intros Hw. apply ltb_Fin_true.
    destruct (Fin (1 / (1 / a + 1 / b)) <? Fin (2 * h))%num; [reflexivity | contradiction Hw; reflexivity].
  - intros Hlt. apply ltb_Fin_true in Hlt. rewrite Hlt. discriminate.
  - intros Hw. apply gtb_Fin_true.
    destruct (Fin (1 / (1 / a' + 1 / b')) >? Fin h)%num; [reflexivity | contradiction Hw; reflexivity].
  - intros Hgt. apply gtb_Fin_true in Hgt. rewrite Hgt. discriminate.
Qed.

Lemma geometry_warnings_witness :
  valid_inputs INITIAL_INPUTS
  /\ warnings (calculateRadial INITIAL_INPUTS) = [].
Proof.
  assert (Hv : valid_inputs INITIAL_INPUTS) by (constructor; cbn; lra).
  split; [exact Hv |].
  destruct (geometry_warnings INITIAL_INPUTS Hv) as (h & Lp & Lk & _ & _ & _ & _ & _ & Hr).
  exact Hr.
Defined.

Lemma dispatch_regime (m : ModelType) (i : FracInputs) :
  regime (dispatch m i)
  = if (K_IC i / (mu i * q i * 1e6) >? 100)%num then Toughness else Viscosity.
Proof. destruct m; reflexivity. Qed.

(** C6. For every valid input with a positive toughness and each model, the
    regime label is "Toughness" exactly when K_IC/(mu*q*1e6) > 100 and
    "Viscosity" otherwise; the label is a function of K_IC, mu and q alone,
    the same for the three models, and the model-type and geometry arguments
    of the classifier have no effect. *)
Theorem regime_threshold (i : FracInputs) :
  in_domain i ->
  exists k m r : R,
    K_IC i = Fin k /\ mu i = Fin m /\ q i = Fin r
    /\ (forall mt,
          (k / (m * r * 1e6) > 100 -> regime (dispatch mt i) = Toughness)
          /\ (~ k / (m * r * 1e6) > 100 -> regime (dispatch mt i) = Viscosity))
    /\ (forall i' mt mt',
          K_IC i' = K_IC i -> mu i' = mu i -> q i' = q i ->
          regime (dispatch mt' i') = regime (dispatch mt i))
    /\ (forall ty ty' Ep Ep' RL RL' h h',
          checkRegime ty Ep (mu i) (q i) (K_IC i) RL h
          = checkRegime ty' Ep' (mu i) (q i) (K_IC i) RL' h').
Proof.
  intros [Hv HK].
  assert (Hind : forall i' mt mt',
             K_IC i' = K_IC i -> mu i' = mu i -> q i' = q i ->
             regime (dispatch mt' i') = regime (dispatch mt i)).
  { intros i' mt mt' EK Em Eq. rewrite !dispatch_regime, EK, Em, Eq. reflexivity. }
  assert (Hthr : forall mt,
             regime (dispatch mt i)
             = if (K_IC i / (mu i * q i * 1e6) >? 100)%num
               then Toughness else Viscosity)
    by (intros; apply dispatch_regime).
  valid_reals i Hv.
  destruct xK as [xK | | |]; try contradiction. cbn [positive] in HK.
  exists xK, xmu, xq. repeat split; try reflexivity; try assumption.
  - intros Hgt. rewrite Hthr. cbn [mul]. rewrite div_Fin by pos.
    apply gtb_Fin_true in Hgt. rewrite Hgt. reflexivity.
  - intros Hle. rewrite Hthr. cbn [mul]. rewrite div_Fin by pos.
    destruct (Fin (xK / (xmu * xq * 1e6)) >? Fin 100)%num eqn:Eg; [| reflexivity].
    apply gtb_Fin_true in Eg. contradiction.
Qed.

Lemma regime_threshold_witness :
  in_domain INITIAL_INPUTS
  /\ forall mt, regime (dispatch mt INITIAL_INPUTS) = Toughness.
Proof.
  assert (Hv : in_domain INITIAL_INPUTS)
    by (split; [constructor |]; cbn; lra).
  split; [exact Hv |].
  destruct (regime_threshold INITIAL_INPUTS Hv)
    as (k & m & r & Ek & Em & Er & Hthr & _).
  cbn in Ek, Em, Er. injection Ek as <-. injection Em as <-. injection Er as <-.
  intros mt. apply Hthr. lra.
Defined.

(* ================================================================= *)
(** ** Sensitivity *)

(** The analyzer selects its solver as the entry point does. *)
Lemma sensitivity_calcFn_dispatch (baseResult : ModelResult) (i : FracInputs) :
  sensitivity_calcFn baseResult i = dispatch (type baseResult) i.
Proof. unfold sensitivity_calcFn, dispatch. destruct (type baseResult); reflexivity. Qed.

(** C7. For every input set and baseline result, the analyzer returns exactly
    8 rows, ordered by parameter (mu, q, sigma_min, CL) then factor (0.5, 2);
    each row re-runs the solver selected by the baseline's model type on the
    input with that one parameter multiplied by the factor, and its
    percentage fields are (perturbed - baseline) / baseline * 100 for length,
    average width and net pressure. *)
Theorem sensitivity_rows (inputs : FracInputs) (baseResult : ModelResult) :
  let perturbed k f :=
    dispatch (type baseResult) (set_key inputs k (get_key inputs k * f)%num) in
  let row k f :=
    {| parameter := key_name k;
       factor := f;
       L_change :=
         ((length (perturbed k f) - length baseResult) / length baseResult
          * 100)%num;
       w_change :=
         ((width_avg (perturbed k f) - width_avg baseResult)
          / width_avg baseResult * 100)%num;
       p_change :=
         ((p_net (perturbed k f) - p_net baseResult) / p_net baseResult
          * 100)%num |} in
  runSensitivity inputs baseResult
  = [ row kmu (Fin 0.5); row kmu (Fin 2);
      row kq (Fin 0.5); row kq (Fin 2);
      row ksigma_min (Fin 0.5); row ksigma_min (Fin 2);
      row kCL (Fin 0.5); row kCL (Fin 2) ]
  /\ List.length (runSensitivity inputs baseResult) = 8%nat
  /\ map parameter (runSensitivity inputs baseResult)
     = ["mu"; "mu"; "q"; "q"; "sigma_min"; "sigma_min"; "CL"; "CL"]%string.
Proof.
  intros perturbed row.
  assert (Hrow : forall k f, sensitivity_row inputs baseResult k f = row k f).
  { intros k f. unfold sensitivity_row, row, perturbed.
    rewrite sensitivity_calcFn_dispatch. reflexivity. }
  assert (Hrun : runSensitivity inputs baseResult
                 = [ row kmu (Fin 0.5); row kmu (Fin 2);
                     row kq (Fin 0.5); row kq (Fin 2);
                     row ksigma_min (Fin 0.5); row ksigma_min (Fin 2);
                     row kCL (Fin 0.5); row kCL (Fin 2) ]).
  { unfold runSensitivity, sensitivity_params, sensitivity_factors.
    cbn [forEach app]. rewrite !Hrow. reflexivity. }
  rewrite Hrun. repeat split.
Qed.

(* ================================================================= *)
(** ** History and profile *)

Lemma for_push_spec {A : Type} (body : nat -> A) (count start : nat) (acc : list A) :
  for_push body start count acc = acc ++ map body (seq start count).
Proof.
  revert start acc. induction count as [| count IH]; intros start acc.
  - cbn. rewrite app_nil_r. reflexivity.
  - cbn [for_push seq map]. rewrite IH, <- app_assoc. reflexivity.
Qed.

Lemma for_push_length {A : Type} (body : nat -> A) (count start : nat) :
  List.length (for_push body start count []) = count.
Proof. rewrite for_push_spec. cbn [app]. rewrite length_map, length_seq. reflexivity. Qed.

Lemma for_push_nth {A : Type} (body : nat -> A) (count start k : nat) :
  (k < count)%nat ->
  nth_error (for_push body start count []) k = Some (body (start + k)%nat).
Proof.
  intros Hk. rewrite for_push_spec. cbn [app].
  rewrite nth_error_map, nth_error_seq.
  apply Nat.ltb_lt in Hk. rewrite Hk. reflexivity.
Qed.


Lemma INR_50 : INR 50 = 50.
Proof. rewrite INR_IZR_INZ. reflexivity. Qed.

(** The sample time of the loop index [j] on exact reals: [(T / 50) * j] is
    [j * T / 50]. *)
Lemma sample_time (T : R) (j : nat) :
  (Fin T / of_nat steps * of_nat j)%num = Fin (INR j * T / 50).
Proof.
  unfold of_nat, steps. rewrite INR_50. rewrite div_Fin by lra.
  cbn [mul]. f_equal. field.
Qed.





(** The position of the loop index [k] on exact reals: [(L / 50) * k] is
    [k * L / 50]. *)
Lemma profile_position (L : R) (k : nat) :
  (Fin L / of_nat points * of_nat k)%num = Fin (INR k * L / 50).
Proof.
  unfold of_nat, points. rewrite INR_50. rewrite div_Fin by lra.
  cbn [mul]. f_equal. field.
Qed.


(* ================================================================= *)
(** ** The entry point does not validate *)

Lemma div_Fin_PInf (x : R) : (Fin x / PInf)%num = Fin 0.
Proof. reflexivity. Qed.

(** One step of evaluation where a zero operand meets a division, a power or
    a square root. *)
Ltac zero_step :=
  first
    [ rewrite pow_Fin_zero by lra
    | rewrite div_Fin_zero_pos by lra
    | rewrite div_zero_zero
    | rewrite div_Fin_PInf
    | rewrite sqrt_0
    | rewrite Rmult_0_r
    | rewrite Rmult_0_l
    | progress unfold Rdiv
    | progress cbn [add] ].

(** With a zero elapsed time both asymptotes vanish, their reciprocals are
    infinite, and the solver returns zero extent, pressure and width. *)
Lemma zero_time_solvePKN :
  solvePKN zero_time_inputs (Fin 0) = mkOut (Fin 0) (Fin 0) (Fin 0).
Proof.
  unfold solvePKN, PKN_L_no_leakoff, PKN_L_high_leakoff, getEPrime.
  cbn [zero_time_inputs set_key INITIAL_INPUTS
       E nu sigma_min CL mu q H K_IC time p_limit depth].
  unfold Math_PI.
  repeat (num_step || zero_step). reflexivity.
Qed.

Lemma zero_time_efficiency : efficiency (calculatePKN zero_time_inputs) = NaN.
Proof.
  cbn [calculatePKN efficiency]. unfold PKN_V_frac, PKN_w_avg.
  change (time zero_time_inputs) with (Fin 0).
  rewrite zero_time_solvePKN.
  cbn [zero_time_inputs set_key INITIAL_INPUTS out_L out_w
       E nu sigma_min CL mu q H K_IC time p_limit depth].
  unfold Math_PI.
  repeat (num_step || zero_step). reflexivity.
Qed.

(** C2, as stated, fails: the input with a zero elapsed time is outside the
    domain, yet the entry point does not reject it; it returns a result
    structure whose efficiency is NaN. *)
Lemma invalid_input_not_rejected :
  ~ valid_inputs zero_time_inputs
  /\ (forall reason, compute PKN zero_time_inputs <> Throw reason)
  /\ exists r,
       compute PKN zero_time_inputs = Normal r /\ efficiency r = NaN.
Proof.
  split; [| split].
  - intros Hv. pose proof (valid_time _ Hv) as HT. cbn in HT. lra.
  - intros reason. unfold compute. discriminate.
  - exists (calculatePKN zero_time_inputs). split; [reflexivity |].
    exact zero_time_efficiency.
Qed.

(* ================================================================= *)
(** ** The form and the dashboard *)

(** X6. [update] writes exactly the named field: reading it back gives the
    new value, and every other field is unchanged. *)
Theorem update_get_key (i : FracInputs) (k k' : InputKey) (v : num) :
  get_key (update i k v) k = v
  /\ (k <> k' -> get_key (update i k v) k' = get_key i k').
Proof.
  split.
  - destruct i, k; reflexivity.
  - intros Hk. destruct i, k, k'; try reflexivity; contradiction Hk; reflexivity.
Qed.

Lemma filter_index_firstn {A : Type} (xs : list A) (n k : nat) :
  filter_index (fun _ i => Nat.ltb i n) xs k = firstn (n - k) xs.
Proof.
  revert k. induction xs as [| x xs IH]; intros k.
  - cbn. rewrite firstn_nil. reflexivity.
  - cbn [filter_index]. destruct (Nat.ltb k n) eqn:Ek.
    + apply Nat.ltb_lt in Ek. rewrite IH.
      replace (n - k)%nat with (S (n - S k)) by lia. reflexivity.
    + apply Nat.ltb_ge in Ek. rewrite IH.
      replace (n - k)%nat with 0%nat by lia.
      replace (n - S k)%nat with 0%nat by lia. reflexivity.
Qed.

(** X7. The sensitivity table of the dashboard shows the first eight rows it
    is given, in order, and therefore every row of the analyzer. *)
Theorem sensitivity_table_rows (rows : list SensitivityData)
    (inputs : FracInputs) (baseResult : ModelResult) :
  sensitivity_table rows = firstn 8 rows
  /\ sensitivity_table (runSensitivity inputs baseResult)
     = runSensitivity inputs baseResult.
Proof.
  assert (Hf : forall xs, sensitivity_table xs = firstn 8 xs).
  { intros xs. unfold sensitivity_table. rewrite filter_index_firstn.
    reflexivity. }
  split; [apply Hf |]. rewrite Hf. reflexivity.
Qed.

(** X9. No solver reads the minimum stress, the toughness, the pressure limit
    or the depth for anything but the wellbore pressure and the regime label:
    two input sets that agree on the other seven fields give the same length,
    widths, net pressure, efficiency, volumes, warnings, time history and
    profile.  The Radial solver ignores the fracture height as well. *)
Theorem unused_inputs (m : ModelType) (i : FracInputs) (s k pl d h : num) :
  let i' := mkInputs (E i) (nu i) s (CL i) (mu i) (q i) (H i) k (time i) pl d in
  let r := dispatch m i in
  let r' := dispatch m i' in
  (length r' = length r /\ width_avg r' = width_avg r
   /\ width_max r' = width_max r /\ p_net r' = p_net r
   /\ efficiency r' = efficiency r
   /\ volume_injected r' = volume_injected r
   /\ volume_leakoff r' = volume_leakoff r
   /\ warnings r' = warnings r
   /\ timeSeries r' = timeSeries r
   /\ profile r' = profile r)
  /\ calculateRadial (update i kH h) = calculateRadial i.
Proof.
  cbv zeta. destruct i. split.
  - destruct m; repeat split; reflexivity.
  - reflexivity.
Qed.

Lemma map_const_repeat {A B : Type} (f : A -> B) (c : B) (l : list A) :
  (forall x, f x = c) -> map f l = repeat c (List.length l).
Proof.
  intros Hf. induction l as [| x l IH]; [reflexivity |].
  cbn [map List.length repeat]. rewrite Hf, IH. reflexivity.
Qed.

(** X12. With a zero elapsed time the history generator still returns 50
    records, all of them the one sample of the solver at time 0. *)
Theorem history_zero_time (calcAtTime : num -> SolverOut) :
  generateHistory (Fin 0) calcAtTime
  = repeat {| ts_time := Fin 0;
              ts_length := out_L (calcAtTime (Fin 0));
              ts_width := out_w (calcAtTime (Fin 0));
              ts_pressure := out_p (calcAtTime (Fin 0)) |} 50.
Proof.
  unfold generateHistory. rewrite for_push_spec. cbn [app].
  assert (Ht : forall j, (Fin 0 / of_nat steps * of_nat j)%num = Fin 0).
  { intros j. rewrite sample_time. f_equal. unfold Rdiv.
    rewrite Rmult_0_r, Rmult_0_l. reflexivity. }
  rewrite (map_const_repeat _
             {| ts_time := Fin 0;
                ts_length := out_L (calcAtTime (Fin 0));
                ts_width := out_w (calcAtTime (Fin 0));
                ts_pressure := out_p (calcAtTime (Fin 0)) |}).
  - rewrite length_seq. reflexivity.
  - intros j. cbv zeta. rewrite Ht. reflexivity.
Qed.




(** X14. With a zero extent the profile generator still returns 51 points,
    all of them at position 0 with a NaN width (0/0 in the normalized
    position), whatever the finite maximum width and the non-zero exponent. *)
Theorem profile_zero_extent (w e : R) (k : nat) :
  e <> 0 -> (k <= 50)%nat ->
  List.length (generateProfile (Fin 0) (Fin w) (Fin e)) = 51%nat
  /\ nth_error (generateProfile (Fin 0) (Fin w) (Fin e)) k
     = Some {| pp_position := Fin 0; pp_width := NaN |}.
Proof.
  intros He Hk. unfold generateProfile.
  split; [apply for_push_length |].
  rewrite for_push_nth by (unfold points; lia).
  cbn [Nat.add]. cbv zeta. rewrite profile_position.
  replace (INR k * 0 / 50) with 0 by (unfold Rdiv; ring).
  rewrite div_zero_zero. cbn [sub add neg].
  unfold Math_pow. destruct (Req_dec_T e 0) as [E0 | _]; [contradiction |].
  reflexivity.
Qed.

Lemma profile_zero_extent_witness :
  0.25 <> 0 /\ (50 <= 50)%nat
  /\ nth_error (generateProfile (Fin 0) (Fin 0) (Fin 0.25)) 50
     = Some {| pp_position := Fin 0; pp_width := NaN |}.
Proof.
  split; [lra |]. split; [lia |].
  apply (profile_zero_extent 0 0.25 50); [lra | lia].
Defined.

(* ================================================================= *)
(** ** Direction of the sensitivities *)





Section RealExtent.

Variables (m : ModelType) (e n v r h c t : R).
Hypotheses (He : 0 < e) (Hn : -1 < n < 0.5) (Hv : 0 < v) (Hr : 0 < r)
  (Hh : 0 < h) (Hc : 0 < c) (Ht : 0 < t).







End RealExtent.



Lemma dispatch_type (m : ModelType) (i : FracInputs) : type (dispatch m i) = m.
Proof. destruct m; reflexivity. Qed.





Lemma pct_of_itself_spec (x : num) : ((x - x) / x * 100)%num = pct_of_itself x.
Proof.
  destruct x as [v | | |]; try reflexivity.
  cbn [sub add neg pct_of_itself]. unfold div.
  replace (v + - v) with 0 by ring.
  destruct (Req_dec_T v 0) as [E0 | N0].
  - destruct (Req_dec_T 0 0) as [_ | N]; [reflexivity | contradiction N; reflexivity].
  - cbn [mul]. f_equal. unfold Rdiv. ring.
Qed.

(** X16. For every valid input and each model, with the baseline computed
    from the same inputs, a row that perturbs the minimum stress compares
    the baseline with itself, whatever the factor: each percentage is
    (x - x) / x * 100 for the baseline's own length, average width or net
    pressure, that is zero when that field is finite and not zero, and NaN
    otherwise (a zero baseline gives 0 / 0). *)
Theorem sensitivity_sigma_min_rows (m : ModelType) (i : FracInputs) (f : num) :
  valid_inputs i ->
  sensitivity_row i (dispatch m i) ksigma_min f
  = {| parameter := "sigma_min"; factor := f;
       L_change := pct_of_itself (length (dispatch m i));
       w_change := pct_of_itself (width_avg (dispatch m i));
       p_change := pct_of_itself (p_net (dispatch m i)) |}.
Proof.
  intros _.
  assert (Hsame : forall x,
            length (dispatch m (set_key i ksigma_min x)) = length (dispatch m i)
            /\ width_avg (dispatch m (set_key i ksigma_min x))
               = width_avg (dispatch m i)
            /\ p_net (dispatch m (set_key i ksigma_min x)) = p_net (dispatch m i)).
  { intros x. destruct i, m; repeat split; reflexivity. }
  unfold sensitivity_row. cbv zeta.
  rewrite sensitivity_calcFn_dispatch, dispatch_type.
  destruct (Hsame (get_key i ksigma_min * f)%num) as (-> & -> & ->).
  rewrite !pct_of_itself_spec. reflexivity.
Qed.

Lemma sensitivity_sigma_min_rows_witness :
  valid_inputs INITIAL_INPUTS
  /\ L_change (sensitivity_row INITIAL_INPUTS (dispatch PKN INITIAL_INPUTS)
                 ksigma_min (Fin 2))
     = pct_of_itself (length (dispatch PKN INITIAL_INPUTS)).
Proof.
  assert (Hv : valid_inputs INITIAL_INPUTS) by (constructor; cbn; lra).
  split; [exact Hv |].
  rewrite (sensitivity_sigma_min_rows PKN INITIAL_INPUTS (Fin 2) Hv).
  reflexivity.
Defined.

(** A percentage against a zero baseline is never finite. *)
Lemma pct_zero_baseline (x : num) : ~ finite ((x - Fin 0) / Fin 0 * 100)%num.
Proof.
  assert (H100 : forall s, (inf_signed s * 100)%num = inf_signed s).
  { intros s. destruct s; cbn [inf_signed mul];
      destruct (Req_dec_T 100 0) as [E0 | _]; try lra;
      destruct (Rlt_dec 0 100) as [_ | N]; try lra; reflexivity. }
  destruct x as [v | | |]; cbn [sub add neg].
  - unfold div. destruct (Req_dec_T 0 0) as [_ | N]; [| contradiction N; reflexivity].
    destruct (Req_dec_T (v + - 0) 0) as [_ | _].
    + cbn. tauto.
    + rewrite H100. destruct (Rlt_dec 0 (v + - 0)); cbn; tauto.
  - cbn [div]. rewrite H100. destruct (Rlt_dec 0 0); cbn; tauto.
  - cbn [div]. rewrite H100. destruct (Rlt_dec 0 0); cbn; tauto.
  - cbn. tauto.
Qed.

(** X17. If the baseline length is zero, no row of the analyzer reports a
    finite change of length: each is NaN or an infinity, whatever the inputs
    and the other fields of the baseline. *)
Theorem sensitivity_zero_baseline (inputs : FracInputs)
    (baseResult : ModelResult) (row : SensitivityData) :
  length baseResult = Fin 0 ->
  In row (runSensitivity inputs baseResult) ->
  ~ finite (L_change row).
Proof.
  intros H0 Hin.
  unfold runSensitivity, sensitivity_params, sensitivity_factors in Hin.
  cbn [forEach app] in Hin.
  repeat (destruct Hin as [<- | Hin];
          [unfold sensitivity_row; cbn [L_change]; rewrite H0;
           apply pct_zero_baseline |]).
  contradiction.
Qed.

Lemma sensitivity_zero_baseline_witness :
  length (calculatePKN zero_time_inputs) = Fin 0
  /\ forall row,
       In row (runSensitivity zero_time_inputs (calculatePKN zero_time_inputs)) ->
       ~ finite (L_change row).
Proof.
  assert (H0 : length (calculatePKN zero_time_inputs) = Fin 0).
  { cbn [calculatePKN length].
    change (time zero_time_inputs) with (Fin 0).
    rewrite zero_time_solvePKN. reflexivity. }
  split; [exact H0 |].
  intros row Hin.
  apply (sensitivity_zero_baseline zero_time_inputs
           (calculatePKN zero_time_inputs) row H0 Hin).
Defined.

(** X21. What the dashboard shows for a width.  In the SI system the value
    is the SI width itself, the factor 0.001 of the "mm" entry not being
    applied between equal systems; in the Field system it is the SI width
    divided by 25.4. *)
Theorem toDisplay_width (w : R) :
  toDisplay SI (Fin w) Category.width = Fin w
  /\ toDisplay FIELD (Fin w) Category.width = Fin (w / 25.4)
  /\ getLabel Category.width SI = "mm"%string
  /\ getLabel Category.width FIELD = "in"%string.
Proof.
  split; [reflexivity |]. split; [| split; reflexivity].
  unfold toDisplay, convertValue. cbn [UnitSystem_eqb UNIT_CONFIG toSI mul].
  rewrite div_Fin by lra. f_equal. lra.
Qed.

(* ================================================================= *)
(** ** Binary64: special values *)

Lemma zero_or_nan_cases (x : float) :
  Binary64.zero_or_nan x -> x = 0%float \/ x = (-0)%float \/ x = nan.
Proof.
  unfold Binary64.zero_or_nan. intros Hx.
  rewrite <- (SF2Prim_Prim2SF x).
  destruct (Prim2SF x) as [[|]|s| |s m e]; try contradiction; cbn; auto.
Qed.

Lemma infinite_or_nan_cases (x : float) :
  Binary64.infinite_or_nan x -> x = infinity \/ x = neg_infinity \/ x = nan.
Proof.
  unfold Binary64.infinite_or_nan. intros Hx.
  rewrite <- (SF2Prim_Prim2SF x).
  destruct (Prim2SF x) as [s|[|]| |s m e]; try contradiction; cbn; auto.
Qed.

Lemma is_zero_zero_or_nan (x : float) :
  PrimFloat.is_zero x = true -> Binary64.zero_or_nan x.
Proof.
  unfold PrimFloat.is_zero, Binary64.zero_or_nan. rewrite FloatAxioms.eqb_spec.
  destruct (Prim2SF x) as [s|s| |s m e]; cbn; auto; try discriminate.
  all: destruct s; discriminate.
Qed.

(** A zero or NaN operand makes a product, and as a numerator a quotient,
    zero or NaN. *)
Lemma mul_zero_or_nan_l (x y : float) :
  Binary64.zero_or_nan x -> Binary64.zero_or_nan (x * y).
Proof.
  unfold Binary64.zero_or_nan. rewrite mul_spec.
  destruct (Prim2SF x) as [s|s| |s m e]; try contradiction; intros _;
    destruct (Prim2SF y) as [s'|s'| |s' m' e']; cbn; exact I.
Qed.

Lemma mul_zero_or_nan_r (x y : float) :
  Binary64.zero_or_nan y -> Binary64.zero_or_nan (x * y).
Proof.
  unfold Binary64.zero_or_nan. rewrite mul_spec.
  destruct (Prim2SF y) as [s|s| |s m e]; try contradiction; intros _;
    destruct (Prim2SF x) as [s'|s'| |s' m' e']; cbn; exact I.
Qed.

Lemma div_zero_or_nan_l (x y : float) :
  Binary64.zero_or_nan x -> Binary64.zero_or_nan (x / y).
Proof.
  unfold Binary64.zero_or_nan. rewrite div_spec.
  destruct (Prim2SF x) as [s|s| |s m e]; try contradiction; intros _;
    destruct (Prim2SF y) as [s'|s'| |s' m' e']; cbn; exact I.
Qed.

Lemma sqrt_zero_or_nan (x : float) :
  Binary64.zero_or_nan x -> Binary64.zero_or_nan (Binary64.Math_sqrt x).
Proof.
  unfold Binary64.zero_or_nan, Binary64.Math_sqrt. rewrite sqrt_spec.
  destruct (Prim2SF x) as [s|s| |s m e]; try contradiction; intros _; cbn;
    exact I.
Qed.

Lemma inv_zero_or_nan (x : float) :
  Binary64.zero_or_nan x -> Binary64.infinite_or_nan (1 / x).
Proof.
  intros Hx. destruct (zero_or_nan_cases x Hx) as [-> | [-> | ->]]; exact I.
Qed.

Lemma inv_infinite_or_nan (x : float) :
  Binary64.infinite_or_nan x -> Binary64.zero_or_nan (1 / x).
Proof.
  intros Hx. destruct (infinite_or_nan_cases x Hx) as [-> | [-> | ->]]; exact I.
Qed.

Lemma add_infinite_or_nan (x y : float) :
  Binary64.infinite_or_nan x -> Binary64.infinite_or_nan y ->
  Binary64.infinite_or_nan (x + y).
Proof.
  intros Hx Hy.
  destruct (infinite_or_nan_cases x Hx) as [-> | [-> | ->]];
    destruct (infinite_or_nan_cases y Hy) as [-> | [-> | ->]]; exact I.
Qed.

Lemma add_infinity_r (x : float) : Binary64.infinite_or_nan (x + infinity).
Proof.
  unfold Binary64.infinite_or_nan. rewrite add_spec.
  destruct (Prim2SF x) as [s|[|]| |s m e]; exact I.
Qed.

Lemma div_zero_or_nan_nan (x y : float) :
  Binary64.zero_or_nan x -> Binary64.zero_or_nan y -> (x / y)%float = nan.
Proof.
  intros Hx Hy.
  destruct (zero_or_nan_cases x Hx) as [-> | [-> | ->]];
    destruct (zero_or_nan_cases y Hy) as [-> | [-> | ->]]; reflexivity.
Qed.

Lemma div_by_zero_or_nan (n z : float) :
  Binary64.zero_or_nan z -> Binary64.infinite_or_nan (n / z).
Proof.
  unfold Binary64.zero_or_nan, Binary64.infinite_or_nan. rewrite div_spec.
  destruct (Prim2SF z) as [s|s| |s m e]; try contradiction; intros _;
    destruct (Prim2SF n) as [s'|s'| |s' m' e']; cbn; exact I.
Qed.

Lemma mul_infinite_zero (x z : float) :
  Binary64.infinite_or_nan x -> Binary64.zero_or_nan z -> (x * z)%float = nan.
Proof.
  intros Hx Hz.
  destruct (infinite_or_nan_cases x Hx) as [-> | [-> | ->]];
    destruct (zero_or_nan_cases z Hz) as [-> | [-> | ->]]; reflexivity.
Qed.

(** The harmonic combination of two values that are zero or NaN. *)
Lemma harmonic_zero_or_nan (a b : float) :
  Binary64.zero_or_nan a -> Binary64.zero_or_nan b ->
  Binary64.zero_or_nan (1 / (1 / a + 1 / b)).
Proof.
  intros Ha Hb.
  apply inv_infinite_or_nan, add_infinite_or_nan; apply inv_zero_or_nan;
    assumption.
Qed.

(** Powers with a positive exponent: of a zero or NaN, and of an infinity or
    NaN under an exponent that is not an odd integer. *)
Lemma pow_zero_or_nan (host : float -> float -> float) (t e : float) :
  Binary64.zero_or_nan t -> (0 <? e)%float = true ->
  Binary64.zero_or_nan (Binary64.Math_pow host t e).
Proof.
  intros Ht He. unfold Binary64.Math_pow. rewrite He.
  unfold Binary64.zero_or_nan in Ht.
  destruct (Prim2SF e) as [s|s| |s m x] eqn:Ee; try exact I;
    destruct (Prim2SF t) as [[|]|s'| |s' m' x']; try contradiction;
    try exact I; try (destruct (Binary64.is_odd_integer e); exact I).
  all: rewrite FloatAxioms.ltb_spec, Ee in He; discriminate.
Qed.

Lemma pow_infinite_or_nan (host : float -> float -> float) (x e : float) :
  Binary64.infinite_or_nan x -> (0 <? e)%float = true ->
  Binary64.is_odd_integer e = false ->
  Binary64.infinite_or_nan (Binary64.Math_pow host x e).
Proof.
  intros Hx He Ho. unfold Binary64.Math_pow. rewrite He, Ho.
  unfold Binary64.infinite_or_nan in Hx.
  destruct (Prim2SF e) as [s|s| |s m y] eqn:Ee; try exact I;
    destruct (Prim2SF x) as [s'|[|]| |s' m' x']; try contradiction; try exact I.
  all: rewrite FloatAxioms.ltb_spec, Ee in He; discriminate.
Qed.


(** NaN propagates. *)
Lemma float_mul_nan_r (x : float) : (x * nan)%float = nan.
Proof.
  apply Prim2SF_inj. rewrite mul_spec.
  destruct (Prim2SF x); reflexivity.
Qed.

Lemma float_div_nan_l (y : float) : (nan / y)%float = nan.
Proof.
  apply Prim2SF_inj. rewrite div_spec.
  destruct (Prim2SF y); reflexivity.
Qed.




Lemma Math_min_nan_r (a : float) : Binary64.Math_min a nan = nan.
Proof.
  unfold Binary64.Math_min. destruct (Prim2SF a) as [[|]| | |]; reflexivity.
Qed.

(** The strict order is asymmetric. *)
Lemma SFltb_asym (x y : spec_float) : SFltb x y = true -> SFltb y x = false.
Proof.
  unfold SFltb.
  destruct x as [s1|s1| |s1 m1 e1], y as [s2|s2| |s2 m2 e2]; cbn;
    try discriminate; try reflexivity;
    try (destruct s1; try destruct s2; cbn; (discriminate || reflexivity)).
  rewrite (Z.compare_antisym e1 e2).
  pose proof (Pos.compare_cont_antisym m1 m2 Eq) as Hm. cbn [CompOpp] in Hm.
  rewrite <- Hm. clear Hm.
  destruct s1, s2; cbn; try discriminate; try reflexivity;
    destruct (e1 ?= e2)%Z; cbn; try discriminate; try reflexivity;
    destruct (Pos.compare_cont Eq m1 m2); cbn; try discriminate; reflexivity.
Qed.

Lemma float_ltb_asym (x y : float) :
  (x <? y)%float = true -> (y <? x)%float = false.
Proof. rewrite !FloatAxioms.ltb_spec. apply SFltb_asym. Qed.

(** [Math.min(1, x)]: never above 1, negative only with [x], NaN only with
    [x]. *)
Lemma Math_min_one (x : float) :
  (1 <? Binary64.Math_min 1 x)%float = false
  /\ (Binary64.Math_min 1 x <? 0)%float = (x <? 0)%float
  /\ (Binary64.Math_min 1 x = nan <-> x = nan).
Proof.
  unfold Binary64.Math_min.
  change (Prim2SF 1) with (S754_finite false 4503599627370496 (-52)).
  destruct (Prim2SF x) as [s|s| |s m e] eqn:Ex; cbn iota.
  4: { destruct (x <? 1)%float eqn:Hlt.
       - split; [| split]; [apply float_ltb_asym, Hlt | reflexivity | tauto].
       - split; [reflexivity | split].
         + rewrite FloatAxioms.ltb_spec in Hlt.
           rewrite (FloatAxioms.ltb_spec x), Ex in *.
           destruct s; [discriminate Hlt | reflexivity].
         + split; [discriminate | intros ->; discriminate Ex]. }
  all: rewrite <- (SF2Prim_Prim2SF x), Ex; try destruct s; repeat split;
    try reflexivity; try discriminate.
Qed.

(* ================================================================= *)
(** ** Binary64: the result in terms of the selected solver *)

Lemma b64_solver_extent (host : float -> float -> float) (m : ModelType)
    (i : Binary64.FracInputs) (t : float) :
  Binary64.out_L (Binary64.solver host m i t)
  = (1 / (1 / Binary64.no_leakoff_extent host m i t
          + 1 / Binary64.high_leakoff_extent m i t))%float.
Proof. destruct m; reflexivity. Qed.

Lemma b64_dispatch_final (host : float -> float -> float) (m : ModelType)
    (i : Binary64.FracInputs) :
  let r := Binary64.dispatch host m i in
  let final := Binary64.solver host m i (Binary64.time i) in
  Binary64.length r = Binary64.out_L final
  /\ Binary64.width_max r = Binary64.out_w final
  /\ Binary64.p_net r = Binary64.out_p final.
Proof. destruct m; repeat split; reflexivity. Qed.

Lemma b64_dispatch_efficiency (host : float -> float -> float) (m : ModelType)
    (i : Binary64.FracInputs) :
  Binary64.efficiency (Binary64.dispatch host m i)
  = Binary64.Math_min 1
      (Binary64.contained_volume host m i / (Binary64.q i * Binary64.time i)).
Proof. destruct m; reflexivity. Qed.

Lemma b64_dispatch_timeSeries (host : float -> float -> float) (m : ModelType)
    (i : Binary64.FracInputs) :
  Binary64.timeSeries (Binary64.dispatch host m i)
  = Binary64.generateHistory (Binary64.time i) (Binary64.solver host m i).
Proof. destruct m; reflexivity. Qed.

Lemma b64_dispatch_profile (host : float -> float -> float) (m : ModelType)
    (i : Binary64.FracInputs) :
  let r := Binary64.dispatch host m i in
  Binary64.profile r
  = Binary64.generateProfile host (Binary64.length r) (Binary64.width_max r)
      (Binary64.shape_exponent m).
Proof. destruct m; reflexivity. Qed.

(* ================================================================= *)
(** ** Binary64: the entry point does not validate *)

(** With a zero time or a zero rate the extent is a zero or NaN, and so is
    the contained volume. *)
Lemma degenerate_extent (host : float -> float -> float) (m : ModelType)
    (i : Binary64.FracInputs) (t : float) :
  Binary64.zero_or_nan t \/ Binary64.zero_or_nan (Binary64.q i) ->
  Binary64.zero_or_nan (Binary64.out_L (Binary64.solver host m i t)).
Proof.
  intros Hz. rewrite b64_solver_extent.
  apply harmonic_zero_or_nan; destruct Hz as [Ht | Hq];
    destruct m; cbn [Binary64.no_leakoff_extent Binary64.high_leakoff_extent];
    unfold Binary64.PKN_L_no_leakoff, Binary64.KGD_L_no_leakoff,
      Binary64.Radial_R_no_leakoff, Binary64.PKN_L_high_leakoff,
      Binary64.KGD_L_high_leakoff, Binary64.Radial_R_high_leakoff; cbv zeta.
  - apply mul_zero_or_nan_r, pow_zero_or_nan; [exact Ht | reflexivity].
  - apply mul_zero_or_nan_r, pow_zero_or_nan; [exact Ht | reflexivity].
  - apply mul_zero_or_nan_r, pow_zero_or_nan; [exact Ht | reflexivity].
  - apply mul_zero_or_nan_l, mul_zero_or_nan_r, pow_zero_or_nan;
      [| reflexivity].
    apply div_zero_or_nan_l, mul_zero_or_nan_l, pow_zero_or_nan;
      [exact Hq | reflexivity].
  - apply mul_zero_or_nan_l, mul_zero_or_nan_r, pow_zero_or_nan;
      [| reflexivity].
    apply div_zero_or_nan_l, mul_zero_or_nan_r, pow_zero_or_nan;
      [exact Hq | reflexivity].
  - apply mul_zero_or_nan_l, mul_zero_or_nan_r, pow_zero_or_nan;
      [| reflexivity].
    apply div_zero_or_nan_l, mul_zero_or_nan_r, pow_zero_or_nan;
      [exact Hq | reflexivity].
  - apply div_zero_or_nan_l, mul_zero_or_nan_r, sqrt_zero_or_nan, Ht.
  - apply div_zero_or_nan_l, mul_zero_or_nan_r, sqrt_zero_or_nan, Ht.
  - apply sqrt_zero_or_nan, div_zero_or_nan_l, mul_zero_or_nan_r,
      sqrt_zero_or_nan, Ht.
  - apply div_zero_or_nan_l, mul_zero_or_nan_l, Hq.
  - apply div_zero_or_nan_l, mul_zero_or_nan_l, Hq.
  - apply sqrt_zero_or_nan, div_zero_or_nan_l, mul_zero_or_nan_l, Hq.
Qed.

Lemma contained_zero_or_nan (host : float -> float -> float) (m : ModelType)
    (i : Binary64.FracInputs) :
  Binary64.zero_or_nan
    (Binary64.out_L (Binary64.solver host m i (Binary64.time i))) ->
  Binary64.zero_or_nan (Binary64.contained_volume host m i).
Proof.
  intros HL. destruct m; cbn [Binary64.contained_volume Binary64.solver] in *.
  - unfold Binary64.PKN_V_frac. cbv zeta.
    apply mul_zero_or_nan_l, mul_zero_or_nan_l, mul_zero_or_nan_l, HL.
  - unfold Binary64.KGD_V_frac. cbv zeta.
    apply mul_zero_or_nan_l, mul_zero_or_nan_l, mul_zero_or_nan_r, HL.
  - unfold Binary64.Radial_V_frac. cbv zeta.
    apply mul_zero_or_nan_l, mul_zero_or_nan_r, HL.
Qed.

(** C2, amended.  The entry point performs no validation: for every input,
    valid or not, every model and every implementation of [Math.pow] it ends
    normally with the result structure of the selected solver, never with a
    failure.  An input outside the domain surfaces as a NaN field instead:
    whenever the elapsed time or the injection rate is zero, the efficiency
    of the returned result is NaN, whatever the other fields are. *)
Theorem entry_point_never_rejects (host : float -> float -> float)
    (m : ModelType) (i : Binary64.FracInputs) :
  (forall reason, Binary64.compute host m i <> Throw reason)
  /\ exists r,
       Binary64.compute host m i = Normal r
       /\ (PrimFloat.is_zero (Binary64.time i) = true
           \/ PrimFloat.is_zero (Binary64.q i) = true ->
           Binary64.efficiency r = nan).
Proof.
  split; [intros reason; unfold Binary64.compute; discriminate |].
  exists (Binary64.dispatch host m i). split; [reflexivity |].
  intros Hz. rewrite b64_dispatch_efficiency.
  rewrite div_zero_or_nan_nan.
  - reflexivity.
  - apply contained_zero_or_nan, degenerate_extent.
    destruct Hz as [Ht | Hq]; [left | right]; apply is_zero_zero_or_nan;
      assumption.
  - destruct Hz as [Ht | Hq];
      [apply mul_zero_or_nan_r | apply mul_zero_or_nan_l];
      apply is_zero_zero_or_nan; assumption.
Qed.

Lemma entry_point_never_rejects_witness :
  PrimFloat.is_zero (Binary64.time Binary64.zero_time_inputs) = true
  /\ forall host m,
       exists r,
         Binary64.compute host m Binary64.zero_time_inputs = Normal r
         /\ Binary64.efficiency r = nan.
Proof.
  split; [reflexivity |]. intros host m.
  destruct (entry_point_never_rejects host m Binary64.zero_time_inputs)
    as (_ & r & Hr & Hnan).
  exists r. split; [exact Hr |]. apply Hnan. left. reflexivity.
Defined.

(* ================================================================= *)
(** ** Binary64: efficiency *)

(** With the leakoff coefficient 1e308 the high-leakoff radius is 0, the
    combined radius 0 or NaN, the net pressure infinite or NaN, and the
    maximum width NaN. *)
Lemma overflow_radius (host : float -> float -> float) :
  Binary64.zero_or_nan
    (Binary64.out_L (Binary64.solveRadial host Binary64.overflow_inputs 1800)).
Proof.
  cbn [Binary64.solveRadial Binary64.out_L].
  replace (Binary64.Radial_R_high_leakoff Binary64.overflow_inputs 1800)
    with 0%float by (vm_compute; reflexivity).
  replace (1 / 0)%float with infinity by reflexivity.
  apply inv_infinite_or_nan, add_infinity_r.
Qed.

Lemma overflow_width (host : float -> float -> float) :
  Binary64.out_w (Binary64.solveRadial host Binary64.overflow_inputs 1800) = nan.
Proof.
  pose proof (overflow_radius host) as HR.
  cbn [Binary64.solveRadial Binary64.out_L Binary64.out_w] in *.
  set (R := (1 / (1 / Binary64.Radial_R_no_leakoff host Binary64.overflow_inputs 1800
                  + 1 / Binary64.Radial_R_high_leakoff Binary64.overflow_inputs 1800))%float)
    in *.
  assert (Hp : Binary64.infinite_or_nan
                 (Binary64.Math_pow host
                    ((Binary64.mu Binary64.overflow_inputs
                      * Binary64.q Binary64.overflow_inputs
                      * Binary64.Math_pow host
                          (Binary64.getEPrime host
                             (Binary64.E Binary64.overflow_inputs)
                             (Binary64.nu Binary64.overflow_inputs)) 2)
                     / Binary64.Math_pow host R 3) 0.25)).
  { apply pow_infinite_or_nan; [| reflexivity | reflexivity].
    apply div_by_zero_or_nan.
    destruct (zero_or_nan_cases R HR) as [-> | [-> | ->]]; exact I. }
  rewrite (mul_infinite_zero _ R); [apply float_div_nan_l | | exact HR].
  destruct (infinite_or_nan_cases _ Hp) as [-> | [-> | ->]]; exact I.
Qed.

(** C3, as stated, fails: a valid input whose efficiency is NaN, whatever
    [Math.pow] returns. *)
Lemma efficiency_nan_on_valid_input :
  Binary64.valid_inputs Binary64.overflow_inputs = true
  /\ forall host,
       Binary64.efficiency
         (Binary64.dispatch host RADIAL Binary64.overflow_inputs) = nan.
Proof.
  split; [reflexivity |]. intros host.
  rewrite b64_dispatch_efficiency. cbn [Binary64.contained_volume].
  unfold Binary64.Radial_V_frac, Binary64.Radial_w_avg. cbv zeta.
  change (Binary64.time Binary64.overflow_inputs) with 1800%float.
  rewrite overflow_width, !float_mul_nan_r, float_div_nan_l.
  apply Math_min_nan_r.
Qed.

(** C3, amended.  For every input, every model and every implementation of
    [Math.pow], the efficiency min(1, contained / injected) is never greater
    than 1; it is negative exactly when the quotient contained / injected is
    negative, and NaN exactly when that quotient is NaN. *)
Theorem efficiency_never_above_one (host : float -> float -> float)
    (m : ModelType) (i : Binary64.FracInputs) :
  let ratio :=
    (Binary64.contained_volume host m i
     / Binary64.volume_injected (Binary64.dispatch host m i))%float in
  let r := Binary64.dispatch host m i in
  (1 <? Binary64.efficiency r)%float = false
  /\ (Binary64.efficiency r <? 0)%float = (ratio <? 0)%float
  /\ (Binary64.efficiency r = nan <-> ratio = nan).
Proof.
  cbv zeta. rewrite b64_dispatch_efficiency.
  replace (Binary64.volume_injected (Binary64.dispatch host m i))
    with (Binary64.q i * Binary64.time i)%float by (destruct m; reflexivity).
  apply Math_min_one.
Qed.

(* ================================================================= *)
(** ** Binary64: asymptotic matching *)


(* ================================================================= *)
(** ** Binary64: history *)

Lemma b64_generateHistory_nth (T : float)
    (calcAtTime : float -> Binary64.SolverOut) (k : nat) :
  (k < 50)%nat ->
  let t := (T / Binary64.of_nat steps * Binary64.of_nat (S k))%float in
  nth_error (Binary64.generateHistory T calcAtTime) k
  = Some {| Binary64.ts_time := t;
            Binary64.ts_length := Binary64.out_L (calcAtTime t);
            Binary64.ts_width := Binary64.out_w (calcAtTime t);
            Binary64.ts_pressure := Binary64.out_p (calcAtTime t) |}.
Proof.
  intros Hk. unfold Binary64.generateHistory.
  rewrite for_push_nth by exact Hk. reflexivity.
Qed.






(** C10, amended.  For every input, every model and every implementation of
    [Math.pow], the last record of the time history is the sample of the
    selected solver at (T / 50) * 50, as binary64 arithmetic evaluates it;
    whenever that product is the elapsed time T itself, the record carries
    the elapsed time and the result's length, maximum width and net
    pressure. *)
Theorem history_last_sample (host : float -> float -> float) (m : ModelType)
    (i : Binary64.FracInputs) :
  let t :=
    (Binary64.time i / Binary64.of_nat steps * Binary64.of_nat 50)%float in
  let r := Binary64.dispatch host m i in
  nth_error (Binary64.timeSeries r) (List.length (Binary64.timeSeries r) - 1)
  = Some {| Binary64.ts_time := t;
            Binary64.ts_length := Binary64.out_L (Binary64.solver host m i t);
            Binary64.ts_width := Binary64.out_w (Binary64.solver host m i t);
            Binary64.ts_pressure :=
              Binary64.out_p (Binary64.solver host m i t) |}
  /\ (t = Binary64.time i ->
      nth_error (Binary64.timeSeries r) (List.length (Binary64.timeSeries r) - 1)
      = Some {| Binary64.ts_time := Binary64.time i;
                Binary64.ts_length := Binary64.length r;
                Binary64.ts_width := Binary64.width_max r;
                Binary64.ts_pressure := Binary64.p_net r |}).
Proof.
  cbv zeta.
  assert (Hlen : List.length (Binary64.timeSeries (Binary64.dispatch host m i))
                 = 50%nat).
  { rewrite b64_dispatch_timeSeries. apply for_push_length. }
  rewrite Hlen. change (50 - 1)%nat with 49%nat.
  assert (Hn := b64_generateHistory_nth (Binary64.time i)
                  (Binary64.solver host m i) 49 ltac:(lia)).
  cbv zeta in Hn. rewrite <- b64_dispatch_timeSeries in Hn.
  split; [exact Hn |]. intros Ht.
  destruct (b64_dispatch_final host m i) as [-> [-> ->]].
  rewrite Hn, Ht. reflexivity.
Qed.

Lemma history_last_sample_witness :
  (Binary64.time Binary64.INITIAL_INPUTS / Binary64.of_nat steps
   * Binary64.of_nat 50)%float
  = Binary64.time Binary64.INITIAL_INPUTS
  /\ forall host m,
       let r := Binary64.dispatch host m Binary64.INITIAL_INPUTS in
       nth_error (Binary64.timeSeries r)
         (List.length (Binary64.timeSeries r) - 1)
       = Some {| Binary64.ts_time := Binary64.time Binary64.INITIAL_INPUTS;
                 Binary64.ts_length := Binary64.length r;
                 Binary64.ts_width := Binary64.width_max r;
                 Binary64.ts_pressure := Binary64.p_net r |}.
Proof.
  split; [reflexivity |]. intros host m.
  apply (history_last_sample host m Binary64.INITIAL_INPUTS). reflexivity.
Defined.

(** C10, as stated, fails: with an elapsed time of 7 s the last record of
    the history is sampled after the elapsed time, for every model. *)
Lemma last_sample_misses_final :
  Binary64.valid_inputs Binary64.seven_second_inputs = true
  /\ forall host m,
       exists rec,
         nth_error
           (Binary64.timeSeries
              (Binary64.dispatch host m Binary64.seven_second_inputs)) 49
         = Some rec
         /\ (Binary64.ts_time rec =? Binary64.time Binary64.seven_second_inputs)%float
            = false
         /\ (Binary64.time Binary64.seven_second_inputs <? Binary64.ts_time rec)%float
            = true.
Proof.
  split; [reflexivity |]. intros host m.
  assert (Hn := b64_generateHistory_nth
                  (Binary64.time Binary64.seven_second_inputs)
                  (Binary64.solver host m Binary64.seven_second_inputs) 49
                  ltac:(lia)).
  cbv zeta in Hn. rewrite <- b64_dispatch_timeSeries in Hn.
  eexists. split; [exact Hn |]. split; reflexivity.
Qed.

(* ================================================================= *)
(** ** Binary64: profile *)




(* ================================================================= *)
(** ** Binary64: degenerate regime scores *)

Lemma zero_mul_positive (r : float) :
  (0 <? r)%float = true -> (r <? infinity)%float = true ->
  (0 * r)%float = 0%float.
Proof.
  intros H0 Hi. apply Prim2SF_inj. rewrite mul_spec.
  rewrite FloatAxioms.ltb_spec in H0, Hi.
  change (Prim2SF 0) with (S754_zero false) in *.
  change (Prim2SF infinity) with (S754_infinity false) in *.
  destruct (Prim2SF r) as [s|s| |s m e]; cbn in H0, Hi; try discriminate;
    destruct s; try discriminate; reflexivity.
Qed.

Lemma zero_mul_negative (r : float) :
  (r <? 0)%float = true -> (neg_infinity <? r)%float = true ->
  (0 * r)%float = (-0)%float.
Proof.
  intros H0 Hi. apply Prim2SF_inj. rewrite mul_spec.
  rewrite FloatAxioms.ltb_spec in H0, Hi.
  change (Prim2SF 0) with (S754_zero false) in *.
  change (Prim2SF neg_infinity) with (S754_infinity true) in *.
  destruct (Prim2SF r) as [s|s| |s m e]; cbn in H0, Hi; try discriminate;
    destruct s; try discriminate; reflexivity.
Qed.

Lemma positive_div_zero (k : float) :
  (0 <? k)%float = true ->
  (k / 0)%float = infinity /\ (k / -0)%float = neg_infinity.
Proof.
  intros H0. rewrite FloatAxioms.ltb_spec in H0.
  change (Prim2SF 0) with (S754_zero false) in H0.
  split; apply Prim2SF_inj; rewrite div_spec;
    destruct (Prim2SF k) as [s|s| |s m e]; cbn in H0; try discriminate;
    destruct s; try discriminate; reflexivity.
Qed.

(** X18. Degenerate scores of the regime classifier, with a zero viscosity
    and a positive toughness: under a positive finite rate the score is
    +Infinity and the label "Toughness"; under a negative finite rate the
    product mu * q is -0, the score -Infinity and the label "Viscosity".
    With a NaN toughness the score is NaN, the comparison fails and the label
    is "Viscosity", whatever the viscosity and the rate. *)
Theorem regime_degenerate (ty : ModelType) (Ep RL h k r : float) :
  (0 <? k)%float = true ->
  ((0 <? r)%float = true -> (r <? infinity)%float = true ->
   Binary64.checkRegime ty Ep 0 r k RL h = Toughness)
  /\ ((r <? 0)%float = true -> (neg_infinity <? r)%float = true ->
      Binary64.checkRegime ty Ep 0 r k RL h = Viscosity)
  /\ (forall v q', Binary64.checkRegime ty Ep v q' nan RL h = Viscosity).
Proof.
  intros Hk. destruct (positive_div_zero k Hk) as [Hp Hn].
  unfold Binary64.checkRegime. cbv zeta. split; [| split].
  - intros H0 Hi. rewrite (zero_mul_positive r H0 Hi).
    change (0 * 1e6)%float with 0%float. rewrite Hp. reflexivity.
  - intros H0 Hi. rewrite (zero_mul_negative r H0 Hi).
    change (-0 * 1e6)%float with (-0)%float. rewrite Hn. reflexivity.
  - intros v q'. rewrite float_div_nan_l. reflexivity.
Qed.

Lemma regime_degenerate_witness :
  (0 <? 1e6)%float = true /\ (0 <? 0.05)%float = true
  /\ (0.05 <? infinity)%float = true
  /\ Binary64.checkRegime PKN 1 0 0.05 1e6 1 1 = Toughness.
Proof.
  split; [reflexivity |]. split; [reflexivity |]. split; [reflexivity |].
  apply (regime_degenerate PKN 1 1 1 1e6 0.05); reflexivity.
Defined.

(* ================================================================= *)
(** ** Binary64: unit conversion *)

(** X1. A conversion between equal systems returns its argument, whatever it
    is.  A conversion to the other system and back need not: a modulus of
    30e9 Pa returns from psi as 29999999999.999996 Pa and a height of 30 m
    returns from ft as 29.999999999999996 m, while 1800 s returns from min
    unchanged. *)
Theorem convertValue_there_and_back :
  (forall v category system,
     Binary64.convertValue v category system system = v)
  /\ Binary64.convertValue
       (Binary64.convertValue 30e9 Category.pressure SI FIELD)
       Category.pressure FIELD SI = 29999999999.999996%float
  /\ Binary64.convertValue
       (Binary64.convertValue 30 Category.length SI FIELD)
       Category.length FIELD SI = 29.999999999999996%float
  /\ Binary64.convertValue
       (Binary64.convertValue 1800 Category.time SI FIELD)
       Category.time FIELD SI = 1800%float.
Proof.
  split; [| repeat split; reflexivity].
  intros v category system. unfold Binary64.convertValue.
  destruct system; reflexivity.
Qed.

(** X2. [convertInputs] between equal systems returns the inputs.  Switching
    the running example from SI to Field units and back changes two of its
    eleven fields by one unit in the last place, the modulus and the
    height. *)
Theorem convertInputs_there_and_back :
  (forall i system, Binary64.convertInputs i system system = i)
  /\ Binary64.convertInputs
       (Binary64.convertInputs Binary64.INITIAL_INPUTS SI FIELD) FIELD SI
     = Binary64.set_key
         (Binary64.set_key Binary64.INITIAL_INPUTS kE 29999999999.999996%float)
         kH 29.999999999999996%float.
Proof.
  split; [| reflexivity].
  intros i system. destruct i, system; reflexivity.
Qed.

(** X3. A conversion can take a valid input set out of the domain: a modulus
    of 1e305 psi becomes Infinity Pa, and a viscosity of 5e-324 cp becomes
    0 Pa.s. *)
Theorem convertInputs_can_leave_domain :
  (Binary64.valid_inputs (Binary64.set_key Binary64.INITIAL_INPUTS kE 1e305)
   = true
   /\ Binary64.E
        (Binary64.convertInputs
           (Binary64.set_key Binary64.INITIAL_INPUTS kE 1e305) FIELD SI)
      = infinity
   /\ Binary64.valid_inputs
        (Binary64.convertInputs
           (Binary64.set_key Binary64.INITIAL_INPUTS kE 1e305) FIELD SI)
      = false)
  /\ (Binary64.valid_inputs (Binary64.set_key Binary64.INITIAL_INPUTS kmu 5e-324)
      = true
      /\ Binary64.mu
           (Binary64.convertInputs
              (Binary64.set_key Binary64.INITIAL_INPUTS kmu 5e-324) FIELD SI)
         = 0%float
      /\ Binary64.valid_inputs
           (Binary64.convertInputs
              (Binary64.set_key Binary64.INITIAL_INPUTS kmu 5e-324) FIELD SI)
         = false).
Proof. repeat split; reflexivity. Qed.

(** X5. The pressure-limit flag is decided in display units, and the
    decision can differ from the comparison in SI units: with a limit of
    7828.6 psi and a wellbore pressure of 53976318.13600001 Pa, the displayed
    pressure 7828.600000000001 psi exceeds the limit and the flag is raised,
    while the limit converted to SI is the wellbore pressure itself. *)
Theorem limit_flag_in_display_units (result : Binary64.ModelResult) :
  Binary64.p_well result = 53976318.13600001%float ->
  let inputs := Binary64.set_key Binary64.INITIAL_INPUTS kp_limit 7828.6 in
  Binary64.isLimitHit inputs result FIELD = true
  /\ Binary64.toDisplay FIELD (Binary64.p_well result) Category.pressure
     = 7828.600000000001%float
  /\ Binary64.p_limit (Binary64.convertInputs inputs FIELD SI)
     = Binary64.p_well result.
Proof.
  intros Hp. cbv zeta. unfold Binary64.isLimitHit. cbv zeta. rewrite Hp.
  repeat split; reflexivity.
Qed.

Lemma limit_flag_in_display_units_witness :
  let result :=
    Binary64.mkResult PKN 1 1 1 1 53976318.13600001 1 1 1 Viscosity [] [] [] in
  Binary64.p_well result = 53976318.13600001%float
  /\ Binary64.isLimitHit
       (Binary64.set_key Binary64.INITIAL_INPUTS kp_limit 7828.6) result FIELD
     = true.
Proof.
  cbv zeta. split; [reflexivity |].
  apply (limit_flag_in_display_units
           (Binary64.mkResult PKN 1 1 1 1 53976318.13600001 1 1 1 Viscosity
              [] [] [])).
  reflexivity.
Defined.
